(** * Verification of [validate_skill.py]

    A shallow embedding of [skills/skill-creator/scripts/validate_skill.py]
    and the properties of its rule engine: frontmatter extraction, the
    lenient key/value parser, the [name] and [description] validators, the
    body line counter and the orchestrator [validate_skill].

    Modelling conventions.
    - A Python [str] is a [string]; its characters are read as the code
      points U+0000..U+00FF, and the character tables below ([isspace],
      [char_lower], [is_word]) are those of Python 3 on that range.
    - A [dict] is a [gmap string string].
    - An uncaught Python exception is [None] in the option monad.
    - [pathlib.Path] is an external object: a record of what the calls made
      on it return. *)

From Stdlib Require Import Ascii String NArith List Bool Arith Lia.
From Stdlib Require Import DecimalString DecimalNat.
From stdpp Require Import base option list strings gmap.

Local Open Scope string_scope.
Local Open Scope list_scope.

(* Let [simpl] compute concatenations with a literal on the left. *)
#[local] Arguments String.append !s1 s2 / : simpl nomatch.

(** ** Python's [str] primitives *)

Module Py.

Definition code (c : ascii) : N := N_of_ascii c.

Definition in_range (lo hi : N) (c : ascii) : bool :=
  (lo <=? code c)%N && (code c <=? hi)%N.

(** [str.isspace] on one character: TAB..CR, FS..US, SPACE, NEL, NBSP. *)
Definition isspace (c : ascii) : bool :=
  in_range 9 13 c || in_range 28 32 c || (code c =? 133)%N || (code c =? 160)%N.

(** [str.lower] on one character: A-Z, and the Latin-1 capitals
    U+00C0..U+00DE except the multiplication sign U+00D7. *)
Definition char_lower (c : ascii) : ascii :=
  if in_range 65 90 c || in_range 192 214 c || in_range 216 222 c
  then ascii_of_N (code c + 32)
  else c.

(** A word character of [re] ([\w] on [str]): alphanumeric or underscore. *)
Definition is_word (c : ascii) : bool :=
  in_range 48 57 c || in_range 65 90 c || (code c =? 95)%N || in_range 97 122 c
  || (code c =? 170)%N || in_range 178 179 c || (code c =? 181)%N
  || in_range 185 186 c || in_range 188 190 c
  || in_range 192 214 c || in_range 216 246 c || in_range 248 255 c.

(** [s.lower()] *)
Fixpoint lower (s : string) : string :=
  match s with
  | EmptyString => EmptyString
  | String c s' => String (char_lower c) (lower s')
  end.

(** [s.lstrip()], [s.rstrip()], [s.strip()] *)
Fixpoint lstrip (s : string) : string :=
  match s with
  | EmptyString => EmptyString
  | String c s' => if isspace c then lstrip s' else s
  end.

Fixpoint rstrip (s : string) : string :=
  match s with
  | EmptyString => EmptyString
  | String c s' =>
      match rstrip s' with
      | EmptyString => if isspace c then EmptyString else String c EmptyString
      | r => String c r
      end
  end.

Definition strip (s : string) : string := rstrip (lstrip s).

(** Truth value of a [str]: non-empty. *)
Definition truthy (s : string) : bool :=
  match s with EmptyString => false | String _ _ => true end.

(** [sub in s] *)
Fixpoint str_in (sub s : string) : bool :=
  String.prefix sub s
  || match s with
     | EmptyString => false
     | String _ s' => str_in sub s'
     end.

(** [s.split(sep)] for a one-character separator: never the empty list. *)
Fixpoint split (sep : ascii) (s : string) : list string :=
  match s with
  | EmptyString => [EmptyString]
  | String c s' =>
      if Ascii.eqb c sep then EmptyString :: split sep s'
      else match split sep s' with
           | [] => [String c EmptyString]
           | h :: t => String c h :: t
           end
  end.

(** [s.split(sep, 1)]: at most one cut, at the first separator. *)
Fixpoint split1 (sep : ascii) (s : string) : list string :=
  match s with
  | EmptyString => [EmptyString]
  | String c s' =>
      if Ascii.eqb c sep then [EmptyString; s']
      else match split1 sep s' with
           | h :: t => String c h :: t
           | [] => [String c EmptyString]
           end
  end.

(** [sep.join(parts)] *)
Fixpoint join (sep : string) (parts : list string) : string :=
  match parts with
  | [] => EmptyString
  | [p] => p
  | p :: rest => p +:+ sep +:+ join sep rest
  end.

(** [str(n)] for a non-negative [int]. *)
Definition str_of_nat (n : nat) : string :=
  NilZero.string_of_uint (Nat.to_uint n).

(** [a, b = l]: unpacking into two targets raises [ValueError] unless the
    list has exactly two items. *)
Definition unpack2 (l : list string) : option (string * string) :=
  match l with
  | [a; b] => Some (a, b)
  | _ => None
  end.

End Py.

(** ** The fragment of [re] the script uses *)

Module Re.

Inductive charset : Type :=
| Lit (c : ascii)                      (* a literal character *)
| NotLit (c : ascii)                   (* [^c] *)
| Ranges (rs : list (ascii * ascii)).  (* [a-b...] *)

Inductive node : Type :=
| One (cs : charset)
| Plus (cs : charset)  (* cs+ *)
| Bol                  (* ^ *)
| Eol                  (* $ *)
| WordB.               (* \b *)

Definition regex : Type := list node.

(** Does one character belong to a set? [ic] is [re.IGNORECASE]; the script
    sets it only on patterns made of literals and [\b], where a literal
    matches the characters with the same lowercase. *)
Definition in_charset (ic : bool) (cs : charset) (c : ascii) : bool :=
  match cs with
  | Lit l =>
      if ic then Ascii.eqb (Py.char_lower c) (Py.char_lower l) else Ascii.eqb c l
  | NotLit l => negb (Ascii.eqb c l)
  | Ranges rs =>
      existsb (fun r => Py.in_range (Py.code (fst r)) (Py.code (snd r)) c) rs
  end.

Definition word_opt (o : option ascii) : bool :=
  match o with Some c => Py.is_word c | None => false end.

Definition head (s : string) : option ascii :=
  match s with EmptyString => None | String c _ => Some c end.

(** [$] without [re.MULTILINE]: at the end, or before a final newline. *)
Definition at_eol (s : string) : bool :=
  match s with
  | EmptyString => true
  | String c EmptyString => Ascii.eqb c "010"%char
  | _ => false
  end.

(** [match_here ic r prev s]: [r] matches a prefix of [s], where [prev] is the
    character just before [s] in the subject ([None] at its start). *)
Fixpoint match_here (ic : bool) (r : regex) (prev : option ascii) (s : string)
  : bool :=
  match r with
  | [] => true
  | One cs :: r' =>
      match s with
      | EmptyString => false
      | String c s' => in_charset ic cs c && match_here ic r' (Some c) s'
      end
  | Plus cs :: r' =>
      (fix more (s : string) : bool :=
         match s with
         | EmptyString => false
         | String c s' =>
             in_charset ic cs c && (match_here ic r' (Some c) s' || more s')
         end) s
  | Bol :: r' =>
      match prev with
      | None => match_here ic r' prev s
      | Some _ => false
      end
  | Eol :: r' => at_eol s && match_here ic r' prev s
  | WordB :: r' =>
      xorb (word_opt prev) (word_opt (head s)) && match_here ic r' prev s
  end.

Fixpoint search_from (ic : bool) (r : regex) (prev : option ascii) (s : string)
  : bool :=
  match_here ic r prev s
  || match s with
     | EmptyString => false
     | String c s' => search_from ic r (Some c) s'
     end.

(** Truth value of [pattern.match(s)] and of [re.search(pattern, s, flags)]. *)
Definition re_match (r : regex) (s : string) : bool :=
  match_here false r None s.

Definition re_search (ic : bool) (r : regex) (s : string) : bool :=
  search_from ic r None s.

(** A literal word as a pattern. *)
Fixpoint lit (w : string) : regex :=
  match w with
  | EmptyString => []
  | String c w' => One (Lit c) :: lit w'
  end.

End Re.

(** ** The script *)

Import Py Re.

(** Validation rules *)
Definition MAX_NAME_LENGTH : nat := 64.
Definition MAX_DESCRIPTION_LENGTH : nat := 1024.
Definition RESERVED_WORDS : list string := ["anthropic"; "claude"].
(** [^[a-z0-9\-]+$] *)
Definition NAME_PATTERN : regex :=
  [Bol;
   Plus (Ranges [("a", "z"); ("0", "9"); ("-", "-")]%char);
   Eol].
(** [<[^>]+>] *)
Definition XML_TAG_PATTERN : regex :=
  [One (Lit "<"); Plus (NotLit ">"); One (Lit ">")].

Definition newline : ascii := "010"%char.

(** *** [extract_frontmatter] *)

Definition MISSING_FRONTMATTER : string :=
  "Missing YAML frontmatter (must start with '---')".
Definition UNCLOSED_FRONTMATTER : string :=
  "YAML frontmatter not properly closed (missing closing '---')".

(** The loop over [enumerate(lines[1:], 1)]: returns [frontmatter_lines] and
    [end_index] as they are when the loop ends. *)
Fixpoint scan_frontmatter (rest : list string) (i : nat)
    (frontmatter_lines : list string) : list string * option nat :=
  match rest with
  | [] => (frontmatter_lines, None)
  | line :: rest' =>
      if String.eqb (strip line) "---" then (frontmatter_lines, Some i)
      else scan_frontmatter rest' (S i) (frontmatter_lines ++ [line])
  end.

(** Returns the pair [(frontmatter, error)], each a [str] or [None]. *)
Definition extract_frontmatter (content : string)
  : option string * option string :=
  let lines := split newline content in
  match lines with
  | [] => (None, Some MISSING_FRONTMATTER)
  | first :: rest =>
      if negb (String.eqb (strip first) "---")
      then (None, Some MISSING_FRONTMATTER)
      else
        match scan_frontmatter rest 1 [] with
        | (_, None) => (None, Some UNCLOSED_FRONTMATTER)
        | (frontmatter_lines, Some _) =>
            (Some (join (String newline "") frontmatter_lines), None)
        end
  end.

(** *** [parse_frontmatter] *)

(** The loop body and the loop over the header lines, threading [data]. *)
Definition parse_line (line : string) (data : gmap string string)
  : option (gmap string string) :=
  if str_in ":" line then
    '(key, value) ← unpack2 (split1 ":" line);
    Some (<[strip key := strip value]> data)
  else Some data.

Fixpoint parse_lines (lines : list string) (data : gmap string string)
  : option (gmap string string) :=
  match lines with
  | [] => Some data
  | line :: rest => data' ← parse_line line data; parse_lines rest data'
  end.

Definition parse_frontmatter (frontmatter : string)
  : option (gmap string string) :=
  parse_lines (split newline frontmatter) ∅.

(** *** [validate_name] *)

Definition NAME_REQUIRED : string :=
  "name field is required and cannot be empty".
Definition name_too_long (found : nat) : string :=
  "name exceeds maximum length of " +:+ str_of_nat MAX_NAME_LENGTH
  +:+ " characters (found " +:+ str_of_nat found +:+ ")".
Definition NAME_CHARSET : string :=
  "name must contain only lowercase letters, numbers, and hyphens".
Definition NAME_XML : string := "name cannot contain XML tags".
Definition name_reserved (word : string) : string :=
  "name cannot contain reserved word '" +:+ word +:+ "'".

(** The loop over [RESERVED_WORDS], appending to [errors]. *)
Fixpoint check_reserved (words : list string) (name : string)
    (errors : list string) : list string :=
  match words with
  | [] => errors
  | word :: rest =>
      check_reserved rest name
        (if str_in word (lower name) then errors ++ [name_reserved word]
         else errors)
  end.

Definition validate_name (name : string) : list string :=
  let errors := [] in
  if negb (truthy name) then errors ++ [NAME_REQUIRED]
  else
    let errors :=
      if (MAX_NAME_LENGTH <? String.length name)%nat
      then errors ++ [name_too_long (String.length name)] else errors in
    let errors :=
      if negb (re_match NAME_PATTERN name)
      then errors ++ [NAME_CHARSET] else errors in
    let errors :=
      if re_search false XML_TAG_PATTERN name
      then errors ++ [NAME_XML] else errors in
    check_reserved RESERVED_WORDS name errors.

(** *** [validate_description] *)

Definition DESCRIPTION_REQUIRED : string :=
  "description field is required and cannot be empty".
Definition description_too_long (found : nat) : string :=
  "description exceeds maximum length of " +:+ str_of_nat MAX_DESCRIPTION_LENGTH
  +:+ " characters (found " +:+ str_of_nat found +:+ ")".
Definition DESCRIPTION_XML : string := "description cannot contain XML tags".
Definition FIRST_PERSON : string :=
  "description should use third person, not first person (avoid 'I', 'my', 'me')".
Definition SECOND_PERSON : string :=
  "description should use third person, not second person (avoid 'you', 'your')".
Definition NO_WHEN_GUIDANCE : string :=
  "description should include 'when to use' guidance (e.g., 'Use when...')".

(** [\bI\b], [\bmy\b], [\bme\b], [I'm], [I'll] *)
Definition first_person_patterns : list regex :=
  [ WordB :: lit "I" ++ [WordB];
    WordB :: lit "my" ++ [WordB];
    WordB :: lit "me" ++ [WordB];
    lit "I'm";
    lit "I'll" ].
(** [\byou\b], [\byour\b], [\byou\'re], [\byou\'ll] *)
Definition second_person_patterns : list regex :=
  [ WordB :: lit "you" ++ [WordB];
    WordB :: lit "your" ++ [WordB];
    WordB :: lit "you're";
    WordB :: lit "you'll" ].

Definition when_phrases : list string :=
  [ "use when"; "when the user"; "when working"; "when creating";
    "when implementing"; "when managing"; "when analyzing" ].

(** A loop [for pattern in patterns: if re.search(pattern, description,
    re.IGNORECASE): errors.append(message); break]. *)
Fixpoint scan_person (patterns : list regex) (description message : string)
    (errors : list string) : list string :=
  match patterns with
  | [] => errors
  | pattern :: rest =>
      if re_search true pattern description then errors ++ [message]
      else scan_person rest description message errors
  end.

Definition validate_description (description : string) : list string :=
  let errors := [] in
  if negb (truthy description) then errors ++ [DESCRIPTION_REQUIRED]
  else
    let errors :=
      if (MAX_DESCRIPTION_LENGTH <? String.length description)%nat
      then errors ++ [description_too_long (String.length description)]
      else errors in
    let errors :=
      if re_search false XML_TAG_PATTERN description
      then errors ++ [DESCRIPTION_XML] else errors in
    let errors :=
      scan_person first_person_patterns description FIRST_PERSON errors in
    let errors :=
      scan_person second_person_patterns description SECOND_PERSON errors in
    let has_when_indicator :=
      existsb (fun phrase => str_in phrase (lower description)) when_phrases in
    if negb has_when_indicator then errors ++ [NO_WHEN_GUIDANCE] else errors.

(** *** [count_lines] *)

(** The loop over [enumerate(lines)]: returns [start_index] as it is when the
    loop ends ([0] unless a second delimiter line is met). *)
Fixpoint scan_body_start (lines : list string) (i frontmatter_count : nat)
  : nat :=
  match lines with
  | [] => 0
  | line :: rest =>
      if String.eqb (strip line) "---" then
        let frontmatter_count := frontmatter_count + 1 in
        if (frontmatter_count =? 2)%nat then i + 1
        else scan_body_start rest (S i) frontmatter_count
      else scan_body_start rest (S i) frontmatter_count
  end.

Definition count_lines (content : string) : nat :=
  let lines := split newline content in
  let start_index := scan_body_start lines 0 0 in
  let body_lines := drop start_index lines in
  length (List.filter (fun line => truthy (strip line)) body_lines).

(** *** [validate_skill] *)

(** What the script observes of [Path(filepath)]: [exists()], [name], and
    [read_text()], which returns the text or raises (the exception's text). *)
Record Path : Type := {
  Path_exists : bool;
  Path_name : string;
  Path_read_text : string + string
}.

Definition file_not_found (filepath : string) : string :=
  "File not found: " +:+ filepath.
Definition wrong_filename (name : string) : string :=
  "Skill file should be named 'SKILL.md', found '" +:+ name +:+ "'".
Definition read_error (e : string) : string := "Error reading file: " +:+ e.
Definition body_too_long (line_count : nat) : string :=
  "SKILL.md body has " +:+ str_of_nat line_count
  +:+ " lines (recommended: under 500). Consider using progressive disclosure with separate reference files.".

(** Truth value of a [str]-or-[None]. *)
Definition truthy_opt (o : option string) : bool :=
  match o with Some s => truthy s | None => false end.

(** [data.get(key, '')] *)
Definition dict_get (data : gmap string string) (key : string) : string :=
  default "" (data !! key).

(** [validate_skill(filepath)], where [path] is [Path(filepath)]. The result
    is the pair [(errors, warnings)]; [None] is an exception that escapes. *)
Definition validate_skill (filepath : string) (path : Path)
  : option (list string * list string) :=
  let errors : list string := [] in
  let warnings : list string := [] in
  if negb (Path_exists path) then Some ([file_not_found filepath], [])
  else
    let warnings :=
      if negb (String.eqb (Path_name path) "SKILL.md")
      then warnings ++ [wrong_filename (Path_name path)] else warnings in
    match Path_read_text path with
    | inr e => Some ([read_error e], [])
    | inl content =>
        let '(frontmatter, error) := extract_frontmatter content in
        if truthy_opt error then Some (option_list error, [])  (* [error] *)
        else
          frontmatter ← frontmatter;
          data ← parse_frontmatter frontmatter;
          let name := dict_get data "name" in
          let name_errors := validate_name name in
          let errors := errors ++ name_errors in
          let description := dict_get data "description" in
          let desc_errors := validate_description description in
          let errors := errors ++ desc_errors in
          let line_count := count_lines content in
          let warnings :=
            if (500 <? line_count)%nat
            then warnings ++ [body_too_long line_count] else warnings in
          Some (errors, warnings)
    end.

(** *** [main] *)

(** What is printed: the code points of the text. The banners hold
    characters beyond U+00FF (a cross mark, a warning sign with its
    variation selector, a check mark). *)
Definition text : Type := list N.

Definition of_str (s : string) : text := map code (list_ascii_of_string s).

Inductive stream : Type := Stdout | Stderr.

(** One call of [print(t, file=...)]. *)
Definition print (file : stream) (t : text) : list (stream * text) :=
  [(file, t)].

Definition FAILED_BANNER : text := 10060%N :: of_str " VALIDATION FAILED".
Definition WARNINGS_BANNER : text :=
  [9888%N; 65039%N] ++ of_str "  VALIDATION PASSED WITH WARNINGS".
Definition PASSED_BANNER : text := 10003%N :: of_str " VALIDATION PASSED".

(** A loop [for x in items: print(f"  - {x}")]. *)
Fixpoint print_items (items : list string) : list (stream * text) :=
  match items with
  | [] => []
  | x :: rest => print Stdout (of_str ("  - " +:+ x)) ++ print_items rest
  end.

(** Truth value of a list: non-empty. *)
Definition truthy_list (l : list string) : bool :=
  match l with [] => false | _ :: _ => true end.

(** [main()], where [argv] is [sys.argv] and [fs filepath] is
    [Path(filepath)]. The result is what was printed, in order, and the
    status passed to [sys.exit]; [None] is an exception that escapes. *)
Definition main (argv : list string) (fs : string → Path)
  : option (list (stream * text) * nat) :=
  if (length argv <? 2)%nat then
    Some (print Stderr (of_str "Usage: validate_skill.py <SKILL.md>")
          ++ print Stdout
               (of_str (String newline
                  "Validates Agent Skill YAML frontmatter and structure.")),
          1)
  else
    filepath ← argv !! 1;
    let out :=
      print Stdout (of_str ("Validating: " +:+ filepath))
      ++ print Stdout [] in
    '(errors, warnings) ← validate_skill filepath (fs filepath);
    if truthy_list errors then
      let out :=
        out ++ print Stdout FAILED_BANNER
        ++ print Stdout []
        ++ print Stdout (of_str "Errors:")
        ++ print_items errors
        ++ print Stdout [] in
      let out :=
        if truthy_list warnings then
          out ++ print Stdout (of_str "Warnings:")
          ++ print_items warnings
          ++ print Stdout []
        else out in
      Some (out, 1)
    else if truthy_list warnings then
      Some (out ++ print Stdout WARNINGS_BANNER
            ++ print Stdout []
            ++ print Stdout (of_str "Warnings:")
            ++ print_items warnings
            ++ print Stdout [],
            0)
    else
      Some (out ++ print Stdout PASSED_BANNER
            ++ print Stdout []
            ++ print Stdout
                 (of_str "SKILL.md is valid and follows all best practices!"),
            0).

(** ** Vocabulary of the statements *)

(** A document given by its lines. *)
Definition doc (lines : list string) : string := join (String newline "") lines.

(** A document that breaks no rule. *)
Definition good_doc : string :=
  doc [ "---";
        "name: pdf-tools";
        "description: Extracts text from PDF files. Use when working with PDF documents.";
        "---";
        "# PDF tools";
        "";
        "Body text." ].

(** A readable file named [SKILL.md], and one named [notes.md]. *)
Definition skill_md (content : string) : Path :=
  {| Path_exists := true; Path_name := "SKILL.md";
     Path_read_text := inl content |}.

Definition notes_md (content : string) : Path :=
  {| Path_exists := true; Path_name := "notes.md";
     Path_read_text := inl content |}.

(** The lines of a document, and its first line ([lines[0]]). *)
Definition lines_of (content : string) : list string := split newline content.
Definition first_line (content : string) : string := hd "" (lines_of content).

(** A delimiter line: [---] once trimmed. *)
Definition is_delimiter (line : string) : Prop := strip line = "---".

(** A line that counts: non-empty once trimmed. *)
Definition non_blank (line : string) : bool := truthy (strip line).

(** A file that exists and can be read. *)
Definition readable (path : Path) (content : string) : Prop :=
  Path_exists path = true ∧ Path_read_text path = inl content.

(** The characters of a string. *)
Abbreviation chars := list_ascii_of_string.

(** [line] reads as [key: value]: it is cut at its first colon and both sides
    are trimmed. *)
Definition key_value (line key value : string) : Prop :=
  ∃ k v, line = k +:+ String ":" v ∧ ¬ In ":"%char (chars k)
         ∧ strip k = key ∧ strip v = value.

(** [key] is set by no line of [lines]. *)
Definition unset_in (lines : list string) (key : string) : Prop :=
  ∀ line, In line lines → ∀ value, ¬ key_value line key value.

(** [value] is what the last line of [lines] that sets [key] gives it. *)
Definition last_set (lines : list string) (key value : string) : Prop :=
  ∃ before line after,
    lines = before ++ line :: after
    ∧ key_value line key value ∧ unset_in after key.

(** The character before position [|pre|] of [pre +:+ s], when [prev] is the
    character before [pre]. *)
Fixpoint before (prev : option ascii) (pre : string) : option ascii :=
  match pre with
  | EmptyString => prev
  | String c pre' => before (Some c) pre'
  end.

(** A tag in the sense of [XML_TAG_PATTERN]: [<], a non-empty run free of
    [>], then [>]. *)
Definition has_tag (v : string) : Prop :=
  ∃ pre mid post,
    v = pre +:+ String "<" (mid +:+ String ">" post)
    ∧ mid ≠ "" ∧ ¬ In ">"%char (chars mid).

(** One check: its message when the check fires, nothing otherwise. *)
Definition report (fires : bool) (message : string) : list string :=
  if fires then [message] else [].

(** The conditions of the checks: [len(s) > limit], the [any(...)] over the
    guidance phrases, and "some pattern of the list is found". *)
Definition too_long (limit : nat) (s : string) : bool :=
  (limit <? String.length s)%nat.

Definition has_when_indicator (description : string) : bool :=
  existsb (fun phrase => str_in phrase (lower description)) when_phrases.

Definition matches_any (patterns : list regex) (description : string) : bool :=
  existsb (fun p => re_search true p description) patterns.

(** Every [<]...[>] with no [>] in between is the bare [<>]. *)
Definition only_empty_tags (v : string) : Prop :=
  ∀ pre mid post,
    v = pre +:+ String "<" (mid +:+ String ">" post) →
    ¬ In ">"%char (chars mid) → mid = "".

(** The number of places of [s] where [word] occurs. *)
Fixpoint occurrences (word s : string) : nat :=
  (if String.prefix word s then 1 else 0)
  + match s with
    | EmptyString => 0
    | String _ s' => occurrences word s'
    end.

(** How many times the message [m] is in [errors]. *)
Definition count (m : string) (errors : list string) : nat :=
  count_occ string_dec errors m.

(** The delimiter test as the script computes it. *)
Definition is_delimiter_b (line : string) : bool :=
  String.eqb (strip line) "---".

(** [content] is an opening delimiter line, header lines none of which is a
    delimiter, a closing delimiter line, and the body lines. *)
Definition well_formed (content : string)
    (opening : string) (header : list string) (closing : string)
    (body : list string) : Prop :=
  lines_of content = opening :: header ++ closing :: body
  ∧ is_delimiter opening
  ∧ Forall (fun line => ¬ is_delimiter line) header
  ∧ is_delimiter closing.

(** The filename warning, recorded before the file is read. *)
Definition filename_warnings (path : Path) : list string :=
  report (negb (String.eqb (Path_name path) "SKILL.md"))
         (wrong_filename (Path_name path)).


(** [sub] occurs in [s]. *)
Definition substring (sub s : string) : Prop :=
  ∃ pre post, s = pre +:+ sub +:+ post.

(** A character of [[a-z0-9\-]]. *)
Definition name_char (c : ascii) : bool :=
  in_range 97 122 c || in_range 48 57 c || (code c =? 45)%N.

(** The rules on the [name] field. *)
Record valid_name (name : string) : Prop := {
  name_given : name ≠ "";
  name_short : (String.length name ≤ 64)%nat;
  name_charset : re_match NAME_PATTERN name = true;
  name_no_tag : ¬ has_tag name;
  name_not_reserved :
    ∀ word, In word RESERVED_WORDS → ¬ substring word (lower name)
}.

(** The rules on the [description] field. *)
Record valid_description (description : string) : Prop := {
  description_given : description ≠ "";
  description_short : (String.length description ≤ 1024)%nat;
  description_no_tag : ¬ has_tag description;
  description_no_first_person :
    ∀ p, In p first_person_patterns → re_search true p description = false;
  description_no_second_person :
    ∀ p, In p second_person_patterns → re_search true p description = false;
  description_guidance :
    ∃ phrase, In phrase when_phrases ∧ substring phrase (lower description)
}.

(** [w] stands alone between [pre] and [post]: no word character touches
    it on either side. *)
Definition standalone (pre post : string) : Prop :=
  word_opt (before None pre) = false ∧ word_opt (head post) = false.


(** Only whitespace. *)
Definition all_space (s : string) : Prop :=
  Forall (fun c => isspace c = true) (chars s).

(** Nothing to trim: empty, or with a first and a last character that are
    not whitespace. *)
Definition trimmed (t : string) : Prop :=
  t = ""
  ∨ ((∃ c, head t = Some c ∧ isspace c = false)
     ∧ (∃ c, before None t = Some c ∧ isspace c = false)).

(** No line break inside. *)
Definition one_line (line : string) : Prop := ¬ In newline (chars line).

(** [w], found between [pre] and [post], is a second-person word: [you] or
    [your] standing alone, in any case. *)
Definition second_person_word (pre w post : string) : Prop :=
  In (lower w) ["you"; "your"] ∧ standalone pre post.

(** What the script prints for a list of messages. *)
Definition item_line (x : string) : stream * text :=
  (Stdout, of_str ("  - " +:+ x)).

(** What [main] prints before the results, and after them on each of its
    three ways out. *)
Definition preamble (filepath : string) : list (stream * text) :=
  [(Stdout, of_str ("Validating: " +:+ filepath)); (Stdout, [])].

Definition warnings_block (warnings : list string) : list (stream * text) :=
  (Stdout, of_str "Warnings:") :: map item_line warnings ++ [(Stdout, [])].

Definition failure_block (errors : list string) : list (stream * text) :=
  [(Stdout, FAILED_BANNER); (Stdout, []); (Stdout, of_str "Errors:")]
  ++ map item_line errors ++ [(Stdout, [])].

(** ** Checks on concrete inputs *)

Example name_uppercase :
  validate_name "My-Skill" = [NAME_CHARSET].
Proof. vm_compute. reflexivity. Qed.

Example name_65_chars :
  validate_name (string_of_list_ascii (repeat "a"%char 65))
  = ["name exceeds maximum length of 64 characters (found 65)"].
Proof. vm_compute. reflexivity. Qed.

Example name_reserved_brand :
  validate_name "claude-helper" = ["name cannot contain reserved word 'claude'"].
Proof. vm_compute. reflexivity. Qed.

Example description_second_person :
  validate_description "This skill helps you when working with files."
  = [SECOND_PERSON].
Proof. vm_compute. reflexivity. Qed.

Example description_without_guidance :
  validate_description "Formats files." = [NO_WHEN_GUIDANCE].
Proof. vm_compute. reflexivity. Qed.

Example unclosed_frontmatter :
  extract_frontmatter (doc ["---"; "name: x"; "description: y"])
  = (None, Some UNCLOSED_FRONTMATTER).
Proof. vm_compute. reflexivity. Qed.

Example count_lines_skips_blank :
  count_lines (doc ["---"; "name: x"; " --- "; "one"; ""; "   "; "two"]) = 2.
Proof. vm_compute. reflexivity. Qed.

(** ** Basic facts on the primitives *)

Lemma truthy_false s : truthy s = false ↔ s = "".
Proof. destruct s; simpl; split; congruence. Qed.

Lemma truthy_true s : truthy s = true ↔ s ≠ "".
Proof. destruct s; simpl; split; congruence. Qed.

Lemma split_not_nil sep s : split sep s ≠ [].
Proof.
  destruct s as [|c s]; simpl; [discriminate|].
  destruct (Ascii.eqb c sep); [discriminate|].
  destruct (split sep s); discriminate.
Qed.

Lemma lines_of_first content :
  ∃ rest, lines_of content = first_line content :: rest.
Proof.
  unfold first_line. destruct (lines_of content) eqn:E.
  - exfalso. exact (split_not_nil _ _ E).
  - eexists. reflexivity.
Qed.

(** What [extract_frontmatter] can return. *)
Lemma extract_frontmatter_cases content :
  extract_frontmatter content = (None, Some MISSING_FRONTMATTER)
  ∨ extract_frontmatter content = (None, Some UNCLOSED_FRONTMATTER)
  ∨ ∃ frontmatter, extract_frontmatter content = (Some frontmatter, None).
Proof.
  unfold extract_frontmatter.
  destruct (split newline content) as [|first rest]; [now left|].
  destruct (negb (String.eqb (strip first) "---")); [now left|].
  destruct (scan_frontmatter rest 1 []) as [fl [i|]]; [|now (right; left)].
  right; right. eexists. reflexivity.
Qed.

Lemma validate_skill_extraction_error filepath path content fm err :
  readable path content →
  extract_frontmatter content = (fm, Some err) →
  validate_skill filepath path = Some ([err], []).
Proof.
  intros [Hex Hrd] He. unfold validate_skill. rewrite Hex, Hrd. simpl.
  rewrite He.
  destruct (extract_frontmatter_cases content) as [H|[H|[f H]]];
    rewrite H in He; inversion He; subst; reflexivity.
Qed.

(** ** C1 and C9: extraction failures *)

(** C1. For every readable document whose first line, once trimmed, is not
    the delimiter [---] (the empty document included), validation returns
    exactly one error, the missing-frontmatter message, and no warning:
    neither the field validators nor the line counter contribute. *)
Theorem missing_open_delimiter filepath path content :
  readable path content →
  strip (first_line content) ≠ "---" →
  validate_skill filepath path = Some ([MISSING_FRONTMATTER], []).
Proof.
  intros Hr Hfirst.
  apply validate_skill_extraction_error with (content := content) (fm := None);
    [exact Hr|].
  unfold extract_frontmatter.
  destruct (lines_of_first content) as [rest Hl]. unfold lines_of in Hl.
  rewrite Hl.
  destruct (String.eqb_spec (strip (first_line content)) "---") as [E|_];
    [contradiction|reflexivity].
Qed.

Lemma missing_open_delimiter_witness :
  validate_skill "SKILL.md" (skill_md "") = Some ([MISSING_FRONTMATTER], []).
Proof.
  apply (missing_open_delimiter "SKILL.md" (skill_md "") "").
  - split; reflexivity.
  - vm_compute. discriminate.
Defined.

(** C9. When extraction fails for a readable file whose basename is not
    [SKILL.md], the result carries the extraction error alone and an empty
    warnings list: the filename warning recorded earlier is dropped. *)
Theorem extraction_failure_drops_filename_warning
    filepath path content fm err :
  readable path content →
  Path_name path ≠ "SKILL.md" →
  extract_frontmatter content = (fm, Some err) →
  validate_skill filepath path = Some ([err], []).
Proof.
  intros Hr _ He. eapply validate_skill_extraction_error; eassumption.
Qed.

Lemma extraction_failure_drops_filename_warning_witness :
  validate_skill "docs/notes.md" (notes_md (doc ["---"; "name: x"]))
  = Some ([UNCLOSED_FRONTMATTER], []).
Proof.
  apply (extraction_failure_drops_filename_warning
           "docs/notes.md" (notes_md (doc ["---"; "name: x"]))
           (doc ["---"; "name: x"]) None UNCLOSED_FRONTMATTER).
  - split; reflexivity.
  - simpl. discriminate.
  - vm_compute. reflexivity.
Defined.

(** ** C6: an empty field yields the "required" error alone *)

(** C6. On the empty string each field validator returns exactly its
    "required" error, although later checks would fail too (the empty name
    does not match the name pattern, the empty description has no guidance
    phrase); a key absent from the parsed header reads as the empty string,
    so the same holds for a missing [name] or [description], as on a
    document whose header has no [description] line. *)
Theorem empty_field_only_required (data : gmap string string) :
  validate_name "" = [NAME_REQUIRED]
  ∧ validate_description "" = [DESCRIPTION_REQUIRED]
  ∧ re_match NAME_PATTERN "" = false
  ∧ existsb (fun phrase => str_in phrase (lower "")) when_phrases = false
  ∧ validate_name (dict_get (delete "name" data) "name") = [NAME_REQUIRED]
  ∧ validate_description (dict_get (delete "description" data) "description")
    = [DESCRIPTION_REQUIRED]
  ∧ validate_skill "SKILL.md" (skill_md (doc ["---"; "name: pdf-tools"; "---"]))
    = Some ([DESCRIPTION_REQUIRED], []).
Proof.
  unfold dict_get. rewrite !lookup_delete_eq. simpl.
  repeat split; vm_compute; reflexivity.
Qed.

(** ** C5: the key/value parser *)

Lemma str_in_char c s : str_in (String c "") s = true ↔ In c (chars s).
Proof.
  induction s as [|a s IH]; simpl.
  - split; [discriminate|tauto].
  - rewrite orb_true_iff, IH.
    destruct (ascii_dec c a) as [->|Hne].
    + split; [now left|].
      intros _. left. now destruct s.
    + split.
      * intros [H|H]; [discriminate|now right].
      * intros [H|H]; [congruence|now right].
Qed.

Lemma split1_cut sep s :
  In sep (chars s) →
  ∃ k v, split1 sep s = [k; v] ∧ s = k +:+ String sep v ∧ ¬ In sep (chars k).
Proof.
  induction s as [|a s IH]; simpl; [tauto|].
  intros Hin. destruct (Ascii.eqb_spec a sep) as [->|Hne].
  - exists "", s. simpl. tauto.
  - destruct Hin as [->|Hin]; [congruence|].
    destruct (IH Hin) as (k & v & Hs & -> & Hk).
    exists (String a k), v. rewrite Hs. simpl. repeat split.
    intros [->|H]; [congruence|contradiction].
Qed.

Lemma cut_in sep k v : In sep (chars (k +:+ String sep v)).
Proof. induction k; simpl; [now left|now right]. Qed.

Lemma cut_unique sep k v k' v' :
  k +:+ String sep v = k' +:+ String sep v' →
  ¬ In sep (chars k) → ¬ In sep (chars k') → k = k' ∧ v = v'.
Proof.
  revert k'. induction k as [|a k IH]; intros [|a' k']; simpl; intros E Hk Hk'.
  - inversion E. auto.
  - inversion E; subst. tauto.
  - inversion E; subst. tauto.
  - inversion E; subst. destruct (IH k') as [-> ->]; auto.
Qed.

Lemma key_value_functional line key value key' value' :
  key_value line key value → key_value line key' value' →
  key = key' ∧ value = value'.
Proof.
  intros (k & v & -> & Hk & <- & <-) (k' & v' & E & Hk' & <- & <-).
  destruct (cut_unique _ _ _ _ _ E Hk Hk') as [-> ->]. auto.
Qed.

(** One step of the loop: a line with a colon stores its pair, any other
    line leaves [data] as it is; no step raises. *)
Lemma parse_line_spec line data :
  (∃ key value, key_value line key value
                ∧ parse_line line data = Some (<[key := value]> data))
  ∨ ((∀ key value, ¬ key_value line key value)
     ∧ parse_line line data = Some data).
Proof.
  unfold parse_line. destruct (str_in ":" line) eqn:Hc.
  - left. apply str_in_char in Hc.
    destruct (split1_cut _ _ Hc) as (k & v & -> & -> & Hk).
    exists (strip k), (strip v). split; [|reflexivity].
    exists k, v. auto.
  - right. split; [|reflexivity].
    intros key value (k & v & -> & _).
    assert (str_in ":" (k +:+ String ":" v) = true) as H
      by (apply str_in_char, cut_in).
    congruence.
Qed.

Lemma parse_lines_spec lines : ∀ data0,
  ∃ data, parse_lines lines data0 = Some data
    ∧ ∀ key, (∃ value, last_set lines key value ∧ data !! key = Some value)
             ∨ (unset_in lines key ∧ data !! key = data0 !! key).
Proof.
  induction lines as [|line rest IH]; intros data0; simpl.
  - exists data0. split; [reflexivity|]. intros key. right.
    split; [intros ? []|reflexivity].
  - destruct (parse_line_spec line data0) as [(k & v & Hkv & ->)|[Hno ->]];
      simpl.
    + destruct (IH (<[k := v]> data0)) as (data & -> & Hdata).
      exists data. split; [reflexivity|]. intros key.
      destruct (Hdata key) as [(value & (b & l & a & -> & Hl & Ha) & Hlk)
                              |[Hun Hlk]].
      * left. exists value. split; [|exact Hlk].
        exists (line :: b), l, a. auto.
      * destruct (decide (k = key)) as [->|Hne].
        -- left. exists v. rewrite Hlk, lookup_insert_eq. split; [|reflexivity].
           exists [], line, rest. auto.
        -- right. rewrite Hlk, lookup_insert_ne by exact Hne.
           split; [|reflexivity].
           intros l [<-|Hin] value Hl; [|exact (Hun l Hin value Hl)].
           destruct (key_value_functional _ _ _ _ _ Hkv Hl). contradiction.
    + destruct (IH data0) as (data & -> & Hdata).
      exists data. split; [reflexivity|]. intros key.
      destruct (Hdata key) as [(value & (b & l & a & -> & Hl & Ha) & Hlk)
                              |[Hun Hlk]].
      * left. exists value. split; [|exact Hlk].
        exists (line :: b), l, a. auto.
      * right. split; [|exact Hlk].
        intros l [<-|Hin] value Hl; [exact (Hno _ _ Hl)|exact (Hun l Hin value Hl)].
Qed.

(** C5. The parser raises on no header: it always returns a map. A key is
    in the map exactly when some header line, cut at its first colon with
    both sides trimmed, sets it, and its value is the one given by the last
    such line; lines without a colon set nothing. In particular
    [name: first] followed later by [name: second] maps [name] to
    [second]. *)
Theorem parse_frontmatter_last_wins (frontmatter : string) :
  (∃ data,
     parse_frontmatter frontmatter = Some data
     ∧ ∀ key,
         (∃ value, last_set (lines_of frontmatter) key value
                   ∧ data !! key = Some value)
         ∨ (unset_in (lines_of frontmatter) key ∧ data !! key = None))
  ∧ (∀ line, str_in ":" line = false → ∀ key value, ¬ key_value line key value)
  ∧ (data ← parse_frontmatter
               (doc ["name: first"; "license MIT"; "name: second"]);
     data !! "name") = Some "second".
Proof.
  split; [|split].
  - destruct (parse_lines_spec (lines_of frontmatter) ∅) as (data & Hp & Hd).
    exists data. split; [exact Hp|]. intros key.
    destruct (Hd key) as [H|[Hun Hlk]]; [now left|right].
    rewrite lookup_empty in Hlk. auto.
  - intros line Hc key value (k & v & -> & _).
    assert (str_in ":" (k +:+ String ":" v) = true) as H
      by (apply str_in_char, cut_in).
    congruence.
  - vm_compute. reflexivity.
Qed.

(** ** Facts on the pattern matcher *)

Lemma match_one_nil ic cs r prev :
  match_here ic (One cs :: r) prev "" = false.
Proof. reflexivity. Qed.

Lemma match_one_cons ic cs r prev c s :
  match_here ic (One cs :: r) prev (String c s)
  = in_charset ic cs c && match_here ic r (Some c) s.
Proof. reflexivity. Qed.

Lemma match_wordb ic r prev s :
  match_here ic (WordB :: r) prev s
  = xorb (word_opt prev) (word_opt (head s)) && match_here ic r prev s.
Proof. reflexivity. Qed.

Lemma match_plus_nil ic cs r prev :
  match_here ic (Plus cs :: r) prev "" = false.
Proof. reflexivity. Qed.

Lemma match_plus_cons ic cs r prev c s :
  match_here ic (Plus cs :: r) prev (String c s)
  = in_charset ic cs c
    && (match_here ic r (Some c) s || match_here ic (Plus cs :: r) (Some c) s).
Proof. reflexivity. Qed.

(** [cs+] then [r]: a non-empty run of [cs], and [r] on what follows. *)
Lemma match_plus_iff ic cs r s : ∀ prev,
  match_here ic (Plus cs :: r) prev s = true
  ↔ ∃ c run rest,
      s = String c (run +:+ rest)
      ∧ Forall (fun x => in_charset ic cs x = true) (c :: chars run)
      ∧ match_here ic r (before (Some c) run) rest = true.
Proof.
  induction s as [|a s IH]; intros prev.
  - rewrite match_plus_nil. split; [discriminate|].
    intros (c & run & rest & E & _). discriminate.
  - rewrite match_plus_cons, andb_true_iff, orb_true_iff, IH. split.
    + intros [Ha [Hr|(c & run & rest & -> & Hall & Hr)]].
      * exists a, "", s. simpl. auto.
      * exists a, (String c run), rest. simpl. auto.
    + intros (c & run & rest & E & Hall & Hr). inversion E; subst.
      inversion Hall as [|? ? Hc Hrun]; subst. split; [exact Hc|].
      destruct run as [|b run]; simpl in *; [now left|right].
      exists b, run, rest. auto.
Qed.

(** [search] finds a match exactly when the pattern matches at some cut. *)
Lemma search_from_iff ic r s : ∀ prev,
  search_from ic r prev s = true
  ↔ ∃ pre s', s = pre +:+ s' ∧ match_here ic r (before prev pre) s' = true.
Proof.
  induction s as [|a s IH]; intros prev; simpl; rewrite orb_true_iff.
  - split.
    + intros [H|H]; [|discriminate]. exists "", "". auto.
    + intros (pre & s' & E & H). left.
      destruct pre; [|discriminate]. simpl in *. now subst.
  - rewrite IH. split.
    + intros [H|(pre & s' & -> & H)].
      * exists "", (String a s). auto.
      * exists (String a pre), s'. auto.
    + intros (pre & s' & E & H). destruct pre as [|b pre]; simpl in *.
      * left. now subst.
      * right. inversion E; subst. eauto.
Qed.

Lemma re_search_iff ic r s :
  re_search ic r s = true
  ↔ ∃ pre s', s = pre +:+ s' ∧ match_here ic r (before None pre) s' = true.
Proof. apply search_from_iff. Qed.

(** *** The tag pattern *)

Lemma xml_tag_here prev s :
  match_here false XML_TAG_PATTERN prev s = true
  ↔ ∃ mid post, s = String "<" (mid +:+ String ">" post)
                ∧ mid ≠ "" ∧ ¬ In ">"%char (chars mid).
Proof.
  unfold XML_TAG_PATTERN. split.
  - destruct s as [|a s]; [discriminate|].
    rewrite match_one_cons, andb_true_iff.
    intros [Ha Hp]. apply Ascii.eqb_eq in Ha. subst a.
    apply match_plus_iff in Hp.
    destruct Hp as (c & run & rest & -> & Hall & Hr).
    destruct rest as [|b rest]; [discriminate|].
    rewrite match_one_cons, andb_true_iff in Hr. destruct Hr as [Hb _].
    apply Ascii.eqb_eq in Hb. subst b.
    exists (String c run), rest. repeat split; [discriminate|].
    intros Hin. change (In ">"%char (c :: chars run)) in Hin.
    rewrite List.Forall_forall in Hall. apply Hall in Hin. discriminate.
  - intros (mid & post & -> & Hne & Hno).
    rewrite match_one_cons, andb_true_iff. split; [reflexivity|].
    apply match_plus_iff. destruct mid as [|c run]; [congruence|].
    exists c, run, (String ">" post). repeat split.
    rewrite List.Forall_forall. intros x Hx. simpl.
    apply negb_true_iff, Ascii.eqb_neq. intros ->. exact (Hno Hx).
Qed.

Lemma xml_search_iff v :
  re_search false XML_TAG_PATTERN v = true ↔ has_tag v.
Proof.
  rewrite re_search_iff. unfold has_tag. split.
  - intros (pre & s' & -> & H). apply xml_tag_here in H.
    destruct H as (mid & post & -> & H). eauto.
  - intros (pre & mid & post & -> & H). eexists pre, _. split; [reflexivity|].
    apply xml_tag_here. eauto.
Qed.

(** ** The validators as lists of reports *)

Lemma in_report m fires message :
  In m (report fires message) ↔ fires = true ∧ message = m.
Proof.
  destruct fires; simpl.
  - split; [intros [H|[]]; auto|intros [_ H]; auto].
  - split; [intros []|intros [H _]; discriminate].
Qed.

Lemma count_report m fires message :
  count_occ string_dec (report fires message) m
  = if fires then (if string_dec message m then 1 else 0) else 0.
Proof. destruct fires; simpl; [|reflexivity]. destruct string_dec; reflexivity. Qed.

Lemma check_reserved_app words name : ∀ errors,
  check_reserved words name errors
  = errors ++ flat_map (fun word => report (str_in word (lower name))
                                           (name_reserved word)) words.
Proof.
  induction words as [|w words IH]; intros errors; simpl.
  - now rewrite app_nil_r.
  - rewrite IH. destruct (str_in w (lower name)); simpl; [|reflexivity].
    now rewrite <- app_assoc.
Qed.

Lemma scan_person_app patterns description message : ∀ errors,
  scan_person patterns description message errors
  = errors ++ report (existsb (fun p => re_search true p description) patterns)
                     message.
Proof.
  induction patterns as [|p ps IH]; intros errors; simpl.
  - now rewrite app_nil_r.
  - destruct (re_search true p description); simpl; [reflexivity|apply IH].
Qed.

(** The checks of [validate_name] on a non-empty value, in order. *)
Lemma validate_name_reports name :
  name ≠ "" →
  validate_name name
  = report (too_long MAX_NAME_LENGTH name) (name_too_long (String.length name))
    ++ report (negb (re_match NAME_PATTERN name)) NAME_CHARSET
    ++ report (re_search false XML_TAG_PATTERN name) NAME_XML
    ++ flat_map (fun word => report (str_in word (lower name))
                                    (name_reserved word)) RESERVED_WORDS.
Proof.
  intros Hne. apply truthy_true in Hne. unfold validate_name, too_long.
  rewrite Hne. cbn [negb]. rewrite check_reserved_app.
  destruct (_ <? _)%nat, (re_match _ _), (re_search _ _ _); reflexivity.
Qed.

(** The checks of [validate_description] on a non-empty value, in order. *)
Lemma validate_description_reports description :
  description ≠ "" →
  validate_description description
  = report (too_long MAX_DESCRIPTION_LENGTH description)
           (description_too_long (String.length description))
    ++ report (re_search false XML_TAG_PATTERN description) DESCRIPTION_XML
    ++ report (matches_any first_person_patterns description) FIRST_PERSON
    ++ report (matches_any second_person_patterns description) SECOND_PERSON
    ++ report (negb (has_when_indicator description)) NO_WHEN_GUIDANCE.
Proof.
  intros Hne. apply truthy_true in Hne.
  unfold validate_description, too_long, has_when_indicator, matches_any.
  rewrite Hne. cbn [negb]. rewrite !scan_person_app.
  destruct (_ <? _)%nat, (re_search false _ _),
    (existsb _ first_person_patterns), (existsb _ second_person_patterns),
    (existsb _ when_phrases); reflexivity.
Qed.

(** Two messages that differ at a character of their fixed parts. *)
Ltac distinct_messages :=
  let H := fresh in
  intro H; vm_compute in H; discriminate H.

(** ** C10: the tag check needs a character between [<] and [>] *)

Lemma only_empty_tags_iff v : only_empty_tags v ↔ ¬ has_tag v.
Proof.
  split.
  - intros Hv (pre & mid & post & E & Hne & Hno). exact (Hne (Hv _ _ _ E Hno)).
  - intros Hv pre mid post E Hno. destruct mid as [|c mid]; [reflexivity|].
    exfalso. apply Hv. exists pre, (String c mid), post.
    repeat split; [exact E|discriminate|exact Hno].
Qed.

Lemma has_tag_nonempty v : has_tag v → v ≠ "".
Proof. intros (pre & mid & post & -> & _). destruct pre; discriminate. Qed.

Lemma name_xml_iff v : In NAME_XML (validate_name v) ↔ has_tag v.
Proof.
  destruct (string_dec v "") as [->|Hne].
  - split.
    + intros [H|[]]. revert H. distinct_messages.
    + intros H. now apply has_tag_nonempty in H.
  - rewrite validate_name_reports by exact Hne.
    rewrite !in_app_iff, !in_report, in_flat_map, xml_search_iff. split.
    + intros [[_ H]|[[_ H]|[[H _]|(w & _ & H)]]]; [exfalso..|exact H|exfalso].
      * revert H. distinct_messages.
      * revert H. distinct_messages.
      * apply in_report in H. destruct H as [_ H]. revert H.
        unfold name_reserved, NAME_XML. simpl. intros H.
        repeat (injection H as H). discriminate.
    + auto.
Qed.

Lemma description_xml_iff v :
  In DESCRIPTION_XML (validate_description v) ↔ has_tag v.
Proof.
  destruct (string_dec v "") as [->|Hne].
  - split.
    + intros [H|[]]. revert H. distinct_messages.
    + intros H. now apply has_tag_nonempty in H.
  - rewrite validate_description_reports by exact Hne.
    rewrite !in_app_iff, !in_report, xml_search_iff. split.
    + intros [[_ H]|[[H _]|[[_ H]|[[_ H]|[_ H]]]]];
        [exfalso|exact H|exfalso..]; revert H; distinct_messages.
    + auto.
Qed.

(** C10. The tag pattern needs at least one character other than [>]
    between [<] and [>]: on a value whose every [<]...[>] is the bare
    two-character [<>], the pattern does not match, and neither the name
    validator nor the description validator emits its markup error. *)
Theorem empty_tag_is_not_markup (v : string) :
  only_empty_tags v →
  re_search false XML_TAG_PATTERN v = false
  ∧ ¬ In NAME_XML (validate_name v)
  ∧ ¬ In DESCRIPTION_XML (validate_description v).
Proof.
  intros Hv. apply only_empty_tags_iff in Hv.
  rewrite name_xml_iff, description_xml_iff. repeat split; try exact Hv.
  apply not_true_iff_false. now rewrite xml_search_iff.
Qed.

Lemma empty_tag_is_not_markup_witness :
  only_empty_tags "a<>b"
  ∧ re_search false XML_TAG_PATTERN "a<>b" = false
  ∧ ¬ In NAME_XML (validate_name "a<>b")
  ∧ ¬ In DESCRIPTION_XML (validate_description "a<>b").
Proof.
  assert (only_empty_tags "a<>b") as Hv.
  { apply only_empty_tags_iff. rewrite <- xml_search_iff.
    vm_compute. discriminate. }
  split; [exact Hv|exact (empty_tag_is_not_markup "a<>b" Hv)].
Defined.

(** ** C4: reserved words *)

(** Settle a comparison of two messages met in a count. *)
Ltac compare_messages :=
  repeat match goal with
    | |- context [string_dec ?a ?b] =>
        let E := fresh "E" in
        destruct (string_dec a b) as [E|E];
        [ try (exfalso; revert E; distinct_messages)
        | try (exfalso; apply E; reflexivity) ]
    end.

(** C4, as the claim has it, fails: a name with the reserved word [claude]
    twice gets one error for it, not two. *)
Lemma reserved_word_twice_one_error :
  occurrences "claude" (lower "claude-claude") = 2
  ∧ validate_name "claude-claude" = [name_reserved "claude"]
  ∧ count_occ string_dec (validate_name "claude-claude") (name_reserved "claude")
    ≠ occurrences "claude" (lower "claude-claude").
Proof. vm_compute. repeat split. discriminate. Qed.

(** C4, amended. For every non-empty name and every word of the reserved
    list, the name validator emits the error naming that word exactly once
    when the word occurs in the lowercased name (however many times), and
    not at all when it does not occur. *)
Theorem reserved_word_one_error_per_word (name word : string) :
  name ≠ "" →
  In word RESERVED_WORDS →
  count_occ string_dec (validate_name name) (name_reserved word)
  = if str_in word (lower name) then 1 else 0.
Proof.
  intros Hne Hw. rewrite validate_name_reports by exact Hne.
  unfold RESERVED_WORDS in *. cbn [flat_map].
  rewrite !count_occ_app, !count_report. cbn [count_occ].
  destruct Hw as [<-|[<-|[]]]; compare_messages;
    repeat match goal with |- context [if ?b then _ else _] => destruct b end;
    reflexivity.
Qed.

Lemma reserved_word_one_error_per_word_witness :
  count_occ string_dec (validate_name "claude-claude") (name_reserved "claude")
  = 1.
Proof.
  apply (reserved_word_one_error_per_word "claude-claude" "claude").
  - discriminate.
  - simpl. auto.
Defined.

(** ** C7: one error per person category *)

(** C7. For every non-empty description the first-person scan contributes
    its error once if some first-person pattern matches and not at all
    otherwise, whatever the number of matching patterns; the second-person
    scan does the same with its own patterns and its own, different,
    message; and one description can get both errors. *)
Theorem person_scans_report_once (description : string) :
  description ≠ "" →
  count FIRST_PERSON (validate_description description)
  = (if matches_any first_person_patterns description then 1 else 0)
  ∧ count SECOND_PERSON (validate_description description)
    = (if matches_any second_person_patterns description then 1 else 0)
  ∧ (count FIRST_PERSON (validate_description description) ≤ 1)%nat
  ∧ (count SECOND_PERSON (validate_description description) ≤ 1)%nat
  ∧ FIRST_PERSON ≠ SECOND_PERSON
  ∧ validate_description "I'm sure my tool lets me help you when working"
    = [FIRST_PERSON; SECOND_PERSON].
Proof.
  intros Hne.
  assert (count FIRST_PERSON (validate_description description)
          = (if matches_any first_person_patterns description then 1 else 0))
    as H1.
  { unfold count. rewrite validate_description_reports by exact Hne.
    rewrite !count_occ_app, !count_report. compare_messages.
    repeat match goal with |- context [if ?b then _ else _] => destruct b end;
      reflexivity. }
  assert (count SECOND_PERSON (validate_description description)
          = (if matches_any second_person_patterns description then 1 else 0))
    as H2.
  { unfold count. rewrite validate_description_reports by exact Hne.
    rewrite !count_occ_app, !count_report. compare_messages.
    repeat match goal with |- context [if ?b then _ else _] => destruct b end;
      reflexivity. }
  split; [exact H1|]. split; [exact H2|].
  split; [rewrite H1; destruct (matches_any first_person_patterns _); lia|].
  split; [rewrite H2; destruct (matches_any second_person_patterns _); lia|].
  split; [distinct_messages|vm_compute; reflexivity].
Qed.

Lemma person_scans_report_once_witness :
  count FIRST_PERSON (validate_description "I, my, me: you and your") = 1
  ∧ count SECOND_PERSON (validate_description "I, my, me: you and your") = 1.
Proof.
  destruct (person_scans_report_once "I, my, me: you and your")
    as (H1 & H2 & _); [discriminate|].
  split; [exact H1|exact H2].
Defined.

(** ** The shape of a well-formed document *)

Lemma is_delimiter_b_true line : is_delimiter_b line = true ↔ is_delimiter line.
Proof. apply String.eqb_eq. Qed.

Lemma is_delimiter_b_false line :
  is_delimiter_b line = false ↔ ¬ is_delimiter line.
Proof. apply String.eqb_neq. Qed.

Lemma scan_frontmatter_found rest : ∀ i acc fl j,
  scan_frontmatter rest i acc = (fl, Some j) →
  ∃ header closing body,
    rest = header ++ closing :: body
    ∧ Forall (fun line => ¬ is_delimiter line) header
    ∧ is_delimiter closing
    ∧ fl = acc ++ header.
Proof.
  induction rest as [|line rest IH]; intros i acc fl j; simpl; [discriminate|].
  fold (is_delimiter_b line). destruct (is_delimiter_b line) eqn:Hd.
  - intros E. inversion E; subst. exists [], line, rest.
    rewrite app_nil_r. apply is_delimiter_b_true in Hd. auto.
  - intros E. apply IH in E.
    destruct E as (header & closing & body & -> & Hh & Hc & ->).
    exists (line :: header), closing, body. rewrite <- app_assoc.
    apply is_delimiter_b_false in Hd. auto.
Qed.

Lemma scan_frontmatter_closed header closing body : ∀ i acc,
  Forall (fun line => ¬ is_delimiter line) header →
  is_delimiter closing →
  scan_frontmatter (header ++ closing :: body) i acc
  = (acc ++ header, Some (i + length header)).
Proof.
  induction header as [|line header IH]; intros i acc Hh Hc; simpl.
  - apply is_delimiter_b_true in Hc. unfold is_delimiter_b in Hc. rewrite Hc.
    now rewrite app_nil_r, Nat.add_0_r.
  - inversion Hh as [|? ? Hl Hh']; subst.
    apply is_delimiter_b_false in Hl. unfold is_delimiter_b in Hl. rewrite Hl.
    rewrite IH by assumption. now rewrite <- app_assoc, Nat.add_succ_r.
Qed.

(** Extraction succeeds exactly on the well-formed documents, and returns
    the header lines joined by newlines. *)
Lemma extract_frontmatter_ok content frontmatter :
  extract_frontmatter content = (Some frontmatter, None)
  ↔ ∃ opening header closing body,
      well_formed content opening header closing body
      ∧ frontmatter = join (String newline "") header.
Proof.
  unfold extract_frontmatter, well_formed, lines_of. split.
  - destruct (split newline content) as [|first rest]; [discriminate|].
    fold (is_delimiter_b first). destruct (is_delimiter_b first) eqn:Hd;
      [|discriminate].
    cbn [negb]. destruct (scan_frontmatter rest 1 []) as [fl [j|]] eqn:Hs;
      [|discriminate].
    intros E. inversion E; subst. apply scan_frontmatter_found in Hs.
    destruct Hs as (header & closing & body & -> & Hh & Hc & ->).
    exists first, header, closing, body.
    apply is_delimiter_b_true in Hd. auto.
  - intros (opening & header & closing & body & (-> & Ho & Hh & Hc) & ->).
    apply is_delimiter_b_true in Ho. unfold is_delimiter_b in Ho. rewrite Ho.
    cbn [negb]. now rewrite scan_frontmatter_closed by assumption.
Qed.

Lemma scan_body_start_second before closing body : ∀ i seen,
  seen + length (List.filter is_delimiter_b before) = 1 →
  is_delimiter closing →
  scan_body_start (before ++ closing :: body) i seen = i + length before + 1.
Proof.
  induction before as [|line before IH]; intros i seen Hseen Hc; simpl in *.
  - apply is_delimiter_b_true in Hc. unfold is_delimiter_b in Hc. rewrite Hc.
    assert (seen = 1) as -> by lia. simpl. lia.
  - fold (is_delimiter_b line). destruct (is_delimiter_b line) eqn:Hd.
    + simpl in Hseen. assert (seen = 0) as -> by lia. simpl.
      rewrite IH by (simpl; (lia || assumption)). lia.
    + rewrite IH by assumption. lia.
Qed.

Lemma filter_no_delimiter header :
  Forall (fun line => ¬ is_delimiter line) header →
  List.filter is_delimiter_b header = [].
Proof.
  induction 1 as [|line header Hl _ IH]; simpl; [reflexivity|].
  apply is_delimiter_b_false in Hl. now rewrite Hl.
Qed.

Section WellFormed.

Context (content opening : string) (header : list string)
        (closing : string) (body : list string).
Hypothesis Hwf : well_formed content opening header closing body.

(** On a well-formed document extraction returns the header. *)
Lemma extract_frontmatter_well_formed :
  extract_frontmatter content
  = (Some (join (String newline "") header), None).
Proof using Hwf.
  apply extract_frontmatter_ok. exists opening, header, closing, body. auto.
Qed.

(** On a well-formed document the counter counts the non-blank body lines. *)
Lemma count_lines_well_formed :
  count_lines content = length (List.filter non_blank body).
Proof using Hwf.
  destruct Hwf as (Hl & Ho & Hh & Hc). unfold count_lines.
  unfold lines_of in Hl. rewrite Hl.
  change (opening :: header ++ closing :: body)
    with ((opening :: header) ++ closing :: body) at 1.
  rewrite (scan_body_start_second (opening :: header) closing body 0 0).
  - replace (0 + length (opening :: header) + 1)
      with (length (opening :: header ++ [closing]))
      by (simpl; rewrite length_app; simpl; lia).
    replace (opening :: header ++ closing :: body)
      with ((opening :: header ++ [closing]) ++ body)
      by (simpl; now rewrite <- app_assoc).
    now rewrite drop_app_length.
  - simpl. apply is_delimiter_b_true in Ho. rewrite Ho.
    rewrite filter_no_delimiter by exact Hh. reflexivity.
  - exact Hc.
Qed.

End WellFormed.

Lemma parse_frontmatter_total frontmatter :
  ∃ data, parse_frontmatter frontmatter = Some data.
Proof.
  destruct (parse_lines_spec (lines_of frontmatter) ∅) as (data & H & _).
  now exists data.
Qed.

(** The result of [validate_skill] once extraction has succeeded. *)
Lemma validate_skill_extracted filepath path content frontmatter :
  readable path content →
  extract_frontmatter content = (Some frontmatter, None) →
  ∃ data,
    parse_frontmatter frontmatter = Some data
    ∧ validate_skill filepath path
      = Some (validate_name (dict_get data "name")
              ++ validate_description (dict_get data "description"),
              filename_warnings path
              ++ report (500 <? count_lines content)%nat
                        (body_too_long (count_lines content))).
Proof.
  intros [Hex Hrd] He.
  destruct (parse_frontmatter_total frontmatter) as [data Hp].
  exists data. split; [exact Hp|].
  unfold validate_skill, filename_warnings.
  rewrite Hex, Hrd. cbn [negb]. rewrite He. cbn [truthy_opt].
  cbn [mbind option_bind]. rewrite Hp. cbn [mbind option_bind].
  destruct (negb _), (500 <? _)%nat; reflexivity.
Qed.

(** ** C8: the body line count is advisory *)



(** ** Substrings and the name pattern *)

Lemma prefix_iff sub : ∀ s,
  String.prefix sub s = true ↔ ∃ post, s = sub +:+ post.
Proof.
  induction sub as [|a sub IH]; intros s; simpl.
  - split; [intros _; now exists s|intros _; now destruct s].
  - destruct s as [|b s]; simpl.
    + split; [discriminate|intros [post E]; discriminate].
    + destruct (ascii_dec a b) as [->|Hne].
      * rewrite IH. split; intros [post E]; exists post; congruence.
      * split; [discriminate|]. intros [post E]. congruence.
Qed.

Lemma str_in_iff sub s : str_in sub s = true ↔ substring sub s.
Proof.
  unfold substring. induction s as [|a s IH]; cbn [str_in];
    rewrite orb_true_iff.
  - rewrite prefix_iff. split.
    + intros [[post E]|H]; [|discriminate]. exists "", post. exact E.
    + intros (pre & post & E). left. destruct pre; [|discriminate].
      now exists post.
  - rewrite prefix_iff, IH. split.
    + intros [[post E]|(pre & post & ->)].
      * exists "", post. exact E.
      * now exists (String a pre), post.
    + intros (pre & post & E). destruct pre as [|b pre]; simpl in E.
      * left. now exists post.
      * right. inversion E; subst. now exists pre, post.
Qed.

Lemma name_char_in_charset c :
  in_charset false (Ranges [("a", "z"); ("0", "9"); ("-", "-")]%char) c
  = name_char c.
Proof.
  unfold name_char, in_charset. cbn [existsb fst snd].
  change (code "a") with 97%N. change (code "z") with 122%N.
  change (code "0") with 48%N. change (code "9") with 57%N.
  change (code "-") with 45%N. rewrite orb_false_r, orb_assoc. f_equal.
  unfold in_range.
  destruct (N.leb_spec 45 (code c)), (N.leb_spec (code c) 45),
    (N.eqb_spec (code c) 45); simpl; try reflexivity; lia.
Qed.

Lemma name_pattern_matches name :
  name ≠ "" →
  Forall (fun c => name_char c = true) (chars name) →
  re_match NAME_PATTERN name = true.
Proof.
  intros Hne Hall. unfold re_match, NAME_PATTERN.
  change (match_here false
            [Plus (Ranges [("a", "z"); ("0", "9"); ("-", "-")]%char); Eol]
            None name = true).
  apply match_plus_iff. destruct name as [|c run]; [congruence|].
  exists c, run, "". repeat split.
  - clear. induction run; simpl; congruence.
  - eapply List.Forall_impl; [|exact Hall]. intros x Hx.
    now rewrite name_char_in_charset.
Qed.

Lemma existsb_false {A} (f : A → bool) l :
  existsb f l = false ↔ ∀ x, In x l → f x = false.
Proof.
  rewrite <- not_true_iff_false, existsb_exists. split.
  - intros H x Hx. apply not_true_iff_false. intros Hf. apply H. eauto.
  - intros H (x & Hx & Hf). rewrite (H x Hx) in Hf. discriminate.
Qed.

(** ** C2: a document that satisfies every rule passes *)

Lemma validate_name_valid name : valid_name name → validate_name name = [].
Proof.
  intros [Hne Hlen Hcs Htag Hres]. rewrite validate_name_reports by exact Hne.
  assert (too_long MAX_NAME_LENGTH name = false) as ->
    by (apply Nat.ltb_ge; exact Hlen).
  rewrite Hcs.
  assert (re_search false XML_TAG_PATTERN name = false) as ->
    by (apply not_true_iff_false; now rewrite xml_search_iff).
  cbn [negb report app]. unfold RESERVED_WORDS in *. cbn [flat_map].
  assert (∀ word, In word ["anthropic"; "claude"] →
                  str_in word (lower name) = false) as Hno.
  { intros word Hw. apply not_true_iff_false. rewrite str_in_iff.
    exact (Hres word Hw). }
  rewrite !Hno by (simpl; auto). reflexivity.
Qed.

Lemma validate_description_valid description :
  valid_description description → validate_description description = [].
Proof.
  intros [Hne Hlen Htag H1 H2 (phrase & Hin & Hsub)].
  rewrite validate_description_reports by exact Hne.
  assert (too_long MAX_DESCRIPTION_LENGTH description = false) as ->
    by (apply Nat.ltb_ge; exact Hlen).
  assert (re_search false XML_TAG_PATTERN description = false) as ->
    by (apply not_true_iff_false; now rewrite xml_search_iff).
  assert (matches_any first_person_patterns description = false) as ->
    by (apply existsb_false; exact H1).
  assert (matches_any second_person_patterns description = false) as ->
    by (apply existsb_false; exact H2).
  assert (has_when_indicator description = true) as ->.
  { apply existsb_exists. exists phrase. split; [exact Hin|].
    now apply str_in_iff. }
  reflexivity.
Qed.

(** C2. For every readable file named [SKILL.md] whose document is well
    formed, whose header gives a [name] and a [description] that satisfy
    all their rules, and whose body has at most 500 non-blank lines,
    validation returns no error and no warning. *)
Theorem valid_document_passes
    filepath path content opening header closing body data :
  readable path content →
  Path_name path = "SKILL.md" →
  well_formed content opening header closing body →
  parse_frontmatter (join (String newline "") header) = Some data →
  valid_name (dict_get data "name") →
  valid_description (dict_get data "description") →
  (length (List.filter non_blank body) ≤ 500)%nat →
  validate_skill filepath path = Some ([], []).
Proof.
  intros Hr Hname Hwf Hp Hn Hd Hbody.
  destruct (validate_skill_extracted filepath path content
              (join (String newline "") header) Hr) as (data' & Hp' & ->).
  { exact (extract_frontmatter_well_formed _ _ _ _ _ Hwf). }
  rewrite Hp in Hp'. injection Hp' as <-.
  rewrite (validate_name_valid _ Hn), (validate_description_valid _ Hd).
  rewrite (count_lines_well_formed _ _ _ _ _ Hwf).
  unfold filename_warnings. rewrite Hname.
  apply Nat.ltb_ge in Hbody. rewrite Hbody. reflexivity.
Qed.

Lemma good_doc_rules :
  ∃ data,
    parse_frontmatter (join (String newline "") (firstn 2 (skipn 1 (lines_of good_doc))))
    = Some data
    ∧ valid_name (dict_get data "name")
    ∧ valid_description (dict_get data "description").
Proof.
  eexists. split; [vm_compute; reflexivity|].
  split.
  - constructor.
    + vm_compute. discriminate.
    + vm_compute. lia.
    + vm_compute. reflexivity.
    + rewrite <- xml_search_iff. vm_compute. discriminate.
    + intros word Hw. rewrite <- str_in_iff.
      destruct Hw as [<-|[<-|[]]]; vm_compute; discriminate.
  - constructor.
    + vm_compute. discriminate.
    + vm_compute. lia.
    + rewrite <- xml_search_iff. vm_compute. discriminate.
    + intros p Hp. repeat (destruct Hp as [<-|Hp]; [vm_compute; reflexivity|]).
      destruct Hp.
    + intros p Hp. repeat (destruct Hp as [<-|Hp]; [vm_compute; reflexivity|]).
      destruct Hp.
    + exists "when working". split; [simpl; auto|].
      rewrite <- str_in_iff. vm_compute. reflexivity.
Defined.

Lemma valid_document_passes_witness :
  validate_skill "skills/pdf/SKILL.md" (skill_md good_doc) = Some ([], []).
Proof.
  destruct good_doc_rules as (data & Hp & Hn & Hd).
  apply (valid_document_passes "skills/pdf/SKILL.md" (skill_md good_doc)
           good_doc "---" (firstn 2 (skipn 1 (lines_of good_doc))) "---"
           (skipn 4 (lines_of good_doc)) data).
  - split; reflexivity.
  - reflexivity.
  - repeat split. repeat constructor; vm_compute; discriminate.
  - exact Hp.
  - exact Hn.
  - exact Hd.
  - vm_compute. lia.
Defined.

(** ** Literal words under [re.IGNORECASE] *)

Lemma char_lower_word c : is_word (char_lower c) = is_word c.
Proof. destruct c as [[] [] [] [] [] [] [] []]; vm_compute; reflexivity. Qed.

Lemma lower_nil w : lower w = "" → w = "".
Proof. destruct w; [reflexivity|discriminate]. Qed.

Lemma before_nonempty w : ∀ p q, w ≠ "" → before p w = before q w.
Proof. destruct w as [|c w]; [congruence|reflexivity]. Qed.

Lemma word_before_lower w : ∀ prev,
  w ≠ "" → word_opt (before prev w) = word_opt (before None (lower w)).
Proof.
  induction w as [|c w IH]; intros prev Hne; [congruence|].
  destruct w as [|b w].
  - simpl. symmetry. apply char_lower_word.
  - change (word_opt (before (Some c) (String b w))
            = word_opt (before (Some (char_lower c)) (lower (String b w)))).
    rewrite IH by discriminate. reflexivity.
Qed.

Lemma word_head_lower w : word_opt (head (lower w)) = word_opt (head w).
Proof. destruct w; [reflexivity|apply char_lower_word]. Qed.

Lemma head_app w post : w ≠ "" → head (w +:+ post) = head w.
Proof. destruct w; [congruence|reflexivity]. Qed.

(** A literal word [w0], then [r]: some [w] with the lowercase of [w0], and
    [r] on what follows. *)
Lemma match_lit_iff r w0 : ∀ prev s,
  match_here true (lit w0 ++ r) prev s = true
  ↔ ∃ w post, s = w +:+ post ∧ lower w = lower w0
              ∧ match_here true r (before prev w) post = true.
Proof.
  induction w0 as [|a w0 IH]; intros prev s.
  - simpl. split.
    + intros H. exists "", s. auto.
    + intros (w & post & -> & Hw & H). apply lower_nil in Hw. now subst.
  - change (lit (String a w0) ++ r) with (One (Lit a) :: lit w0 ++ r).
    destruct s as [|c s].
    + rewrite match_one_nil. split; [discriminate|].
      intros (w & post & E & Hw & _). destruct w; discriminate.
    + rewrite match_one_cons, andb_true_iff, IH.
      cbn [in_charset]. rewrite Ascii.eqb_eq. split.
      * intros (Hc & w & post & -> & Hw & H).
        exists (String c w), post. simpl. rewrite Hc, Hw. auto.
      * intros (w & post & E & Hw & H). destruct w as [|c' w]; [discriminate|].
        simpl in E, Hw, H. injection E as <- ->. injection Hw as Hc Hw.
        split; [exact Hc|]. exists w, post. auto.
Qed.


(** A bare pronoun: the word between two word boundaries, whatever its
    case. *)
Lemma bare_word_search w0 d :
  w0 ≠ "" →
  word_opt (head (lower w0)) = true →
  word_opt (before None (lower w0)) = true →
  re_search true (WordB :: lit w0 ++ [WordB]) d = true
  ↔ ∃ pre w post, d = pre +:+ w +:+ post ∧ lower w = lower w0
                  ∧ word_opt (before None pre) = false
                  ∧ word_opt (head post) = false.
Proof.
  intros Hne Hfirst Hlast.
  assert (∀ w, lower w = lower w0 → w ≠ "") as Hw0.
  { intros w Hw ->. destruct w0; [congruence|discriminate]. }
  assert (∀ w p post, lower w = lower w0 →
            xorb (word_opt p) (word_opt (head (w +:+ post))) = negb (word_opt p))
    as Hstart.
  { intros w p post Hw. rewrite head_app by (apply Hw0; exact Hw).
    rewrite <- word_head_lower, Hw, Hfirst. now destruct (word_opt p). }
  assert (∀ w p post, lower w = lower w0 →
            xorb (word_opt (before p w)) (word_opt (head post))
            = negb (word_opt (head post))) as Hend.
  { intros w p post Hw. rewrite (word_before_lower w p) by (apply Hw0; exact Hw).
    now rewrite Hw, Hlast. }
  rewrite re_search_iff. split.
  - intros (pre & s' & -> & H).
    rewrite match_wordb, andb_true_iff in H. destruct H as [Hb H].
    apply match_lit_iff in H. destruct H as (w & post & -> & Hw & H).
    rewrite match_wordb, andb_true_iff in H. destruct H as [He _].
    rewrite Hstart in Hb by exact Hw. rewrite Hend in He by exact Hw.
    apply negb_true_iff in Hb, He. exists pre, w, post. auto.
  - intros (pre & w & post & -> & Hw & Hb & He). exists pre, (w +:+ post).
    split; [reflexivity|].
    rewrite match_wordb, andb_true_iff, Hstart, Hb by exact Hw.
    split; [reflexivity|]. apply match_lit_iff. exists w, post.
    split; [reflexivity|]. split; [exact Hw|].
    rewrite match_wordb, Hend, He by exact Hw. reflexivity.
Qed.

(** ** C3: the first-person patterns ignore case *)





(** ** Trimming *)

Lemma all_space_nil : all_space "".
Proof. constructor. Qed.

Lemma all_space_cons c s :
  all_space (String c s) ↔ isspace c = true ∧ all_space s.
Proof.
  unfold all_space. simpl. split.
  - intros H. inversion H; subst. auto.
  - intros [Hc Hs]. constructor; assumption.
Qed.

Lemma lstrip_all_space l s : all_space l → lstrip (l +:+ s) = lstrip s.
Proof.
  induction l as [|c l IH]; intros Hl; [reflexivity|].
  apply all_space_cons in Hl. destruct Hl as [Hc Hl].
  simpl. rewrite Hc. auto.
Qed.

Lemma lstrip_cut s : ∃ l, s = l +:+ lstrip s ∧ all_space l.
Proof.
  induction s as [|c s (l & E & Hl)]; simpl.
  - exists "". split; [reflexivity|apply all_space_nil].
  - destruct (isspace c) eqn:Hc.
    + exists (String c l). simpl. split; [congruence|].
      apply all_space_cons. auto.
    + exists "". split; [reflexivity|apply all_space_nil].
Qed.

Lemma lstrip_head s c : head (lstrip s) = Some c → isspace c = false.
Proof.
  induction s as [|a s IH]; simpl; [discriminate|].
  destruct (isspace a) eqn:Ha; [exact IH|].
  simpl. intros E. injection E as <-. exact Ha.
Qed.

Lemma rstrip_cons c s :
  rstrip (String c s)
  = if truthy (rstrip s) then String c (rstrip s)
    else if isspace c then "" else String c "".
Proof. simpl. destruct (rstrip s); reflexivity. Qed.

Lemma rstrip_all_space r : all_space r → rstrip r = "".
Proof.
  induction r as [|c r IH]; intros Hr; [reflexivity|].
  apply all_space_cons in Hr. destruct Hr as [Hc Hr].
  rewrite rstrip_cons, (IH Hr), Hc. reflexivity.
Qed.

Lemma rstrip_cut s : ∃ r, s = rstrip s +:+ r ∧ all_space r.
Proof.
  induction s as [|c s (r & E & Hr)].
  - exists "". split; [reflexivity|apply all_space_nil].
  - rewrite rstrip_cons. destruct (rstrip s) as [|b t] eqn:Ht; cbn [truthy].
    + simpl in E. subst s. destruct (isspace c) eqn:Hc.
      * exists (String c r). split; [reflexivity|].
        apply all_space_cons. auto.
      * exists r. auto.
    + exists r. split; [now rewrite E at 1|exact Hr].
Qed.

Lemma rstrip_last s c : before None (rstrip s) = Some c → isspace c = false.
Proof.
  induction s as [|a s IH]; [discriminate|].
  rewrite rstrip_cons. destruct (rstrip s) as [|b t] eqn:Ht; cbn [truthy].
  - destruct (isspace a) eqn:Ha; [discriminate|].
    simpl. intros E. injection E as <-. exact Ha.
  - intros E. apply IH. exact E.
Qed.

Lemma rstrip_head s c :
  head s = Some c → isspace c = false → head (rstrip s) = Some c.
Proof.
  destruct s as [|a s]; [discriminate|].
  simpl head. intros E Hc. injection E as ->.
  rewrite rstrip_cons. destruct (truthy (rstrip s)); [reflexivity|].
  now rewrite Hc.
Qed.

(** Trimming removes whitespace at both ends and nothing else. *)
Lemma strip_cut s :
  ∃ l r, s = l +:+ strip s +:+ r ∧ all_space l ∧ all_space r.
Proof.
  destruct (lstrip_cut s) as (l & El & Hl).
  destruct (rstrip_cut (lstrip s)) as (r & Er & Hr).
  exists l, r. unfold strip. rewrite <- Er. auto.
Qed.

Lemma strip_trimmed s : trimmed (strip s).
Proof.
  unfold trimmed, strip. destruct (rstrip (lstrip s)) as [|a t] eqn:E;
    [now left|right].
  rewrite <- E. split.
  - destruct (lstrip s) as [|b u] eqn:El; [discriminate|].
    assert (isspace b = false) as Hb
      by (apply (lstrip_head s); now rewrite El).
    exists b. split; [|exact Hb]. now apply rstrip_head.
  - destruct (before None (rstrip (lstrip s))) as [c|] eqn:Hc.
    + exists c. split; [reflexivity|]. eapply rstrip_last. exact Hc.
    + rewrite E in Hc. simpl in Hc. clear -Hc. exfalso.
      revert a Hc. induction t as [|b t IH]; intros a Hc; simpl in Hc;
        [discriminate|eauto].
Qed.

Lemma rstrip_trimmed t r :
  (t = "" ∨ ∃ c, before None t = Some c ∧ isspace c = false) →
  all_space r → rstrip (t +:+ r) = t.
Proof.
  intros Ht Hr. induction t as [|a t IH].
  - simpl. now apply rstrip_all_space.
  - destruct Ht as [Ht|(c & Hc & Hs)]; [discriminate|].
    change (String a t +:+ r) with (String a (t +:+ r)).
    rewrite rstrip_cons. destruct t as [|b t].
    + simpl in Hc. injection Hc as ->. simpl.
      rewrite rstrip_all_space by exact Hr. simpl. now rewrite Hs.
    + rewrite IH by (right; exists c; auto). reflexivity.
Qed.

Lemma lstrip_trimmed t :
  (t = "" ∨ ∃ c, head t = Some c ∧ isspace c = false) → lstrip t = t.
Proof.
  intros [->|(c & Hc & Hs)]; [reflexivity|].
  destruct t as [|a t]; [discriminate|]. simpl in Hc. injection Hc as ->.
  simpl. now rewrite Hs.
Qed.

(** The trimmed text is the only trimmed middle between two runs of
    whitespace. *)
Lemma strip_unique l t r :
  all_space l → all_space r → trimmed t → strip (l +:+ t +:+ r) = t.
Proof.
  intros Hl Hr Ht. unfold strip. rewrite lstrip_all_space by exact Hl.
  destruct Ht as [->|[Hh Hb]].
  - simpl. destruct (lstrip_cut r) as (l' & E & Hl').
    assert (all_space (lstrip r)) as Hs.
    { clear -Hr. induction r as [|c r IH]; simpl; [exact Hr|].
      apply all_space_cons in Hr. destruct Hr as [Hc Hr]. rewrite Hc. auto. }
    now apply rstrip_all_space.
  - assert (lstrip (t +:+ r) = t +:+ r) as ->.
    { apply lstrip_trimmed. right. destruct Hh as (c & Hc & Hs).
      exists c. split; [|exact Hs]. destruct t; [discriminate|exact Hc]. }
    apply rstrip_trimmed; [now right|exact Hr].
Qed.

Lemma append_nil_r s : s +:+ "" = s.
Proof. induction s; simpl; congruence. Qed.

Lemma strip_idempotent s : strip (strip s) = strip s.
Proof.
  pose proof (strip_unique "" (strip s) "" all_space_nil all_space_nil
                (strip_trimmed s)) as H.
  simpl in H. now rewrite append_nil_r in H.
Qed.

Lemma strip_all_space s : strip s = "" ↔ all_space s.
Proof.
  split.
  - intros E. destruct (strip_cut s) as (l & r & Es & Hl & Hr).
    rewrite E in Es. simpl in Es. subst s. clear E.
    induction l as [|c l IH]; simpl; [exact Hr|].
    apply all_space_cons in Hl. destruct Hl as [Hc Hl].
    apply all_space_cons. auto.
  - intros Hs.
    pose proof (strip_unique s "" "" Hs all_space_nil (or_introl eq_refl)) as H.
    simpl in H. now rewrite append_nil_r in H.
Qed.

(** X1. A line is a delimiter line exactly when it is [---] with any
    amount of whitespace, and nothing else, on either side: a trailing
    carriage return or indentation does not stop a line from delimiting
    the frontmatter. *)
Theorem delimiter_line_iff (line : string) :
  is_delimiter line
  ↔ ∃ l r, line = l +:+ "---" +:+ r ∧ all_space l ∧ all_space r.
Proof.
  unfold is_delimiter. split.
  - intros E. destruct (strip_cut line) as (l & r & Es & Hl & Hr).
    rewrite E in Es. eauto.
  - intros (l & r & -> & Hl & Hr). apply strip_unique; [exact Hl|exact Hr|].
    right. split; exists "-"%char; split; reflexivity.
Qed.

(** X2. A line is left out of the body count exactly when it holds
    nothing but whitespace. *)
Theorem blank_line_iff (line : string) :
  non_blank line = false ↔ all_space line.
Proof. unfold non_blank. rewrite truthy_false. apply strip_all_space. Qed.

(** X3. Whatever the header, every key and every value of the parsed map
    is trimmed: trimming it again changes nothing, and it neither starts
    nor ends with whitespace. *)
Theorem parsed_fields_trimmed
    (frontmatter : string) (data : gmap string string) (key value : string) :
  parse_frontmatter frontmatter = Some data →
  data !! key = Some value →
  strip key = key ∧ strip value = value ∧ trimmed key ∧ trimmed value.
Proof.
  intros Hp Hk.
  destruct (parse_lines_spec (lines_of frontmatter) ∅) as (data' & Hp' & Hd).
  unfold parse_frontmatter in Hp. unfold lines_of in Hp'.
  rewrite Hp in Hp'. injection Hp' as <-.
  destruct (Hd key) as [(v & (b & l & a & _ & (k0 & v0 & _ & _ & <- & <-) & _) & Hv)
                       |[_ Hnone]].
  - rewrite Hk in Hv. injection Hv as ->.
    rewrite !strip_idempotent. repeat split; apply strip_trimmed.
  - rewrite lookup_empty in Hnone. congruence.
Qed.

Lemma parsed_fields_trimmed_witness :
  strip "name" = "name" ∧ strip "pdf-tools" = "pdf-tools"
  ∧ trimmed "name" ∧ trimmed "pdf-tools".
Proof.
  destruct (parse_frontmatter "  name :   pdf-tools  ") as [data|] eqn:Hp;
    [|vm_compute in Hp; discriminate].
  apply (parsed_fields_trimmed "  name :   pdf-tools  " data "name" "pdf-tools").
  - exact Hp.
  - vm_compute in Hp. injection Hp as <-. vm_compute. reflexivity.
Defined.

(** ** Lines: splitting and joining *)

Lemma join_cons_char sep c h t :
  join sep (String c h :: t) = String c (join sep (h :: t)).
Proof. destruct t; reflexivity. Qed.

Lemma join_cons sep h t :
  t ≠ [] → join sep (h :: t) = h +:+ sep +:+ join sep t.
Proof. destruct t; [congruence|reflexivity]. Qed.

Lemma split_one_line sep h : ¬ In sep (chars h) → split sep h = [h].
Proof.
  induction h as [|c h IH]; simpl; [reflexivity|]. intros Hno.
  destruct (Ascii.eqb_spec c sep) as [->|Hne]; [tauto|].
  rewrite IH by tauto. reflexivity.
Qed.

Lemma split_cut sep h s :
  ¬ In sep (chars h) → split sep (h +:+ String sep s) = h :: split sep s.
Proof.
  induction h as [|c h IH]; simpl; intros Hno.
  - now rewrite Ascii.eqb_refl.
  - destruct (Ascii.eqb_spec c sep) as [->|Hne]; [tauto|].
    rewrite IH by tauto. reflexivity.
Qed.

Lemma split_lines_free sep s :
  Forall (fun line => ¬ In sep (chars line)) (split sep s).
Proof.
  induction s as [|c s IH]; simpl.
  - constructor; [tauto|constructor].
  - destruct (Ascii.eqb_spec c sep) as [->|Hne].
    + constructor; [simpl; tauto|exact IH].
    + destruct (split sep s) as [|h t]; [repeat constructor; simpl; tauto|].
      inversion IH; subst. constructor; [|assumption].
      simpl. intros [E|H]; [congruence|contradiction].
Qed.

(** X4. Cutting a text into lines loses nothing: joining the lines with
    newlines gives the text back. *)
Theorem join_split (sep : ascii) (s : string) :
  join (String sep "") (split sep s) = s.
Proof.
  induction s as [|c s IH]; simpl; [reflexivity|].
  destruct (Ascii.eqb_spec c sep) as [->|Hne].
  - rewrite join_cons by apply split_not_nil. now rewrite IH.
  - destruct (split sep s) as [|h t] eqn:E.
    + now apply split_not_nil in E.
    + rewrite join_cons_char. now rewrite IH.
Qed.

(** X5. Joining at least one line, none of which holds the separator, and
    cutting the result again gives the same lines back; this is how the
    header found by [extract_frontmatter] reaches [parse_frontmatter]. *)
Theorem split_join (sep : ascii) (lines : list string) :
  lines ≠ [] →
  Forall (fun line => ¬ In sep (chars line)) lines →
  split sep (join (String sep "") lines) = lines.
Proof.
  induction lines as [|h t IH]; [congruence|]. intros _ Hall.
  inversion Hall as [|? ? Hh Ht]; subst. destruct t as [|h' t].
  - simpl. now apply split_one_line.
  - rewrite join_cons by discriminate.
    change (h +:+ String sep "" +:+ join (String sep "") (h' :: t))
      with (h +:+ String sep (join (String sep "") (h' :: t))).
    rewrite split_cut by exact Hh. rewrite IH by (discriminate || exact Ht).
    reflexivity.
Qed.

Lemma split_join_witness :
  split newline (join (String newline "") ["name: x"; ""; "description: y"])
  = ["name: x"; ""; "description: y"].
Proof.
  apply (split_join newline ["name: x"; ""; "description: y"]).
  - discriminate.
  - repeat constructor; vm_compute;
      intros H; repeat (destruct H as [H|H]; [discriminate H|]); exact H.
Defined.

(** ** The header as the parser sees it *)

Lemma well_formed_header_lines content opening header closing body :
  well_formed content opening header closing body →
  Forall one_line header.
Proof.
  intros (Hl & _). pose proof (split_lines_free newline content) as Hall.
  unfold lines_of in Hl. rewrite Hl in Hall.
  inversion Hall as [|? ? _ Hrest]; subst.
  apply Forall_app in Hrest. tauto.
Qed.

(** X6. On a well-formed document the parsed map is read off the header
    lines themselves: a key maps to the value given by the last header
    line that sets it, and is absent when no header line sets it (an empty
    header gives the empty map). *)
Theorem header_lines_decide_fields
    (content opening : string) (header : list string)
    (closing : string) (body : list string) :
  well_formed content opening header closing body →
  ∃ data,
    parse_frontmatter (join (String newline "") header) = Some data
    ∧ ∀ key,
        (∃ value, last_set header key value ∧ data !! key = Some value)
        ∨ (unset_in header key ∧ data !! key = None).
Proof.
  intros Hwf. pose proof (well_formed_header_lines _ _ _ _ _ Hwf) as Hone.
  destruct header as [|h t].
  - exists ∅. split; [reflexivity|]. intros key. right.
    split; [intros ? []|apply lookup_empty].
  - unfold parse_frontmatter.
    rewrite split_join by (discriminate || exact Hone).
    destruct (parse_lines_spec (h :: t) ∅) as (data & Hp & Hd).
    exists data. split; [exact Hp|]. intros key.
    destruct (Hd key) as [H|[Hun Hlk]]; [now left|right].
    rewrite lookup_empty in Hlk. auto.
Qed.

Lemma header_lines_decide_fields_witness :
  ∃ data,
    parse_frontmatter
      (join (String newline "") ["name: first"; "name: second"]) = Some data
    ∧ ∀ key,
        (∃ value, last_set ["name: first"; "name: second"] key value
                  ∧ data !! key = Some value)
        ∨ (unset_in ["name: first"; "name: second"] key ∧ data !! key = None).
Proof.
  apply (header_lines_decide_fields
           (doc ["---"; "name: first"; "name: second"; "---"; "Body"])
           "---" ["name: first"; "name: second"] "---" ["Body"]).
  repeat split. repeat constructor; vm_compute; discriminate.
Defined.

(** ** Outcomes of [validate_skill] *)

Lemma scan_frontmatter_open rest : ∀ i acc,
  Forall (fun line => ¬ is_delimiter line) rest →
  snd (scan_frontmatter rest i acc) = None.
Proof.
  induction rest as [|line rest IH]; intros i acc Hall; simpl; [reflexivity|].
  inversion Hall as [|? ? Hl Hrest]; subst.
  apply is_delimiter_b_false in Hl. unfold is_delimiter_b in Hl. rewrite Hl.
  now apply IH.
Qed.

(** X7. A readable document whose first line is a delimiter line and none
    of whose later lines is one gets exactly the unclosed-frontmatter
    error and no warning, whatever the file is called and whatever the
    header holds. *)
Theorem unclosed_frontmatter_error
    (filepath : string) (path : Path) (content opening : string)
    (rest : list string) :
  readable path content →
  lines_of content = opening :: rest →
  is_delimiter opening →
  Forall (fun line => ¬ is_delimiter line) rest →
  validate_skill filepath path = Some ([UNCLOSED_FRONTMATTER], []).
Proof.
  intros Hr Hl Ho Hrest.
  apply validate_skill_extraction_error with (content := content) (fm := None);
    [exact Hr|].
  unfold extract_frontmatter. unfold lines_of in Hl. rewrite Hl.
  apply is_delimiter_b_true in Ho. unfold is_delimiter_b in Ho. rewrite Ho.
  cbn [negb]. pose proof (scan_frontmatter_open rest 1 [] Hrest) as Hs.
  destruct (scan_frontmatter rest 1 []) as [fl [j|]]; [discriminate|reflexivity].
Qed.

Lemma unclosed_frontmatter_error_witness :
  validate_skill "notes.md" (notes_md (doc ["---"; "name: x"; "description: y"]))
  = Some ([UNCLOSED_FRONTMATTER], []).
Proof.
  apply (unclosed_frontmatter_error "notes.md"
           (notes_md (doc ["---"; "name: x"; "description: y"]))
           (doc ["---"; "name: x"; "description: y"])
           "---" ["name: x"; "description: y"]).
  - split; reflexivity.
  - reflexivity.
  - reflexivity.
  - repeat constructor; vm_compute; discriminate.
Defined.

(** X8. [validate_skill] raises on no path and no file content: it always
    returns a pair of lists. *)
Theorem validate_skill_never_raises (filepath : string) (path : Path) :
  ∃ errors warnings, validate_skill filepath path = Some (errors, warnings).
Proof.
  destruct (Path_exists path) eqn:Hex.
  - destruct (Path_read_text path) as [content|e] eqn:Hrd.
    + destruct (extract_frontmatter_cases content) as [H|[H|[fm H]]].
      * eexists _, _.
        eapply validate_skill_extraction_error; [split|]; eassumption.
      * eexists _, _.
        eapply validate_skill_extraction_error; [split|]; eassumption.
      * destruct (validate_skill_extracted filepath path content fm)
          as (data & _ & ->); [split; assumption|exact H|]. eauto.
    + unfold validate_skill. rewrite Hex, Hrd. simpl. eauto.
  - unfold validate_skill. rewrite Hex. simpl. eauto.
Qed.

(** X9. The outcomes of [validate_skill] are of two kinds. Either the
    file was read and its frontmatter extracted, and then the warnings are
    the filename warning (if the name is not [SKILL.md]) followed by the
    body-length warning (if the count exceeds 500); or the run stopped
    early, and then there is exactly one error (file not found, read
    error, missing or unclosed frontmatter) and no warning at all. *)
Theorem validate_skill_outcomes
    (filepath : string) (path : Path) (errors warnings : list string) :
  validate_skill filepath path = Some (errors, warnings) →
  (∃ content frontmatter,
     readable path content
     ∧ extract_frontmatter content = (Some frontmatter, None)
     ∧ warnings
       = filename_warnings path
         ++ report (500 <? count_lines content)%nat
                   (body_too_long (count_lines content)))
  ∨ (warnings = []
     ∧ ∃ e, errors = [e]
            ∧ (e = file_not_found filepath
               ∨ (∃ x, e = read_error x)
               ∨ e = MISSING_FRONTMATTER
               ∨ e = UNCLOSED_FRONTMATTER)).
Proof.
  intros Hv. destruct (Path_exists path) eqn:Hex.
  - destruct (Path_read_text path) as [content|x] eqn:Hrd.
    + assert (readable path content) as Hr by (split; assumption).
      destruct (extract_frontmatter_cases content) as [H|[H|[fm H]]].
      * rewrite (validate_skill_extraction_error _ _ _ _ _ Hr H) in Hv.
        injection Hv as <- <-. right. split; [reflexivity|]. eexists. eauto.
      * rewrite (validate_skill_extraction_error _ _ _ _ _ Hr H) in Hv.
        injection Hv as <- <-. right. split; [reflexivity|]. eexists.
        split; [reflexivity|]. auto.
      * destruct (validate_skill_extracted filepath path content fm Hr H)
          as (data & _ & Hv').
        rewrite Hv' in Hv. injection Hv as <- <-. left. eauto.
    + unfold validate_skill in Hv. rewrite Hex, Hrd in Hv. simpl in Hv.
      injection Hv as <- <-. right. split; [reflexivity|]. eexists.
      split; [reflexivity|]. eauto.
  - unfold validate_skill in Hv. rewrite Hex in Hv. simpl in Hv.
    injection Hv as <- <-. right. split; [reflexivity|]. eexists. eauto.
Qed.

Lemma validate_skill_outcomes_witness :
  (∃ content frontmatter,
     readable {| Path_exists := false; Path_name := "SKILL.md";
                 Path_read_text := inr "" |} content
     ∧ extract_frontmatter content = (Some frontmatter, None)
     ∧ [] = filename_warnings {| Path_exists := false; Path_name := "SKILL.md";
                                 Path_read_text := inr "" |}
            ++ report (500 <? count_lines content)%nat
                      (body_too_long (count_lines content)))
  ∨ (@nil string = []
     ∧ ∃ e, [file_not_found "gone/SKILL.md"] = [e]
            ∧ (e = file_not_found "gone/SKILL.md"
               ∨ (∃ x, e = read_error x)
               ∨ e = MISSING_FRONTMATTER
               ∨ e = UNCLOSED_FRONTMATTER)).
Proof.
  apply (validate_skill_outcomes "gone/SKILL.md"
           {| Path_exists := false; Path_name := "SKILL.md";
              Path_read_text := inr "" |}
           [file_not_found "gone/SKILL.md"] []).
  reflexivity.
Defined.

(** ** The name pattern, exactly *)

Lemma at_eol_iff s : at_eol s = true ↔ s = "" ∨ s = String newline "".
Proof.
  destruct s as [|c [|d s]]; simpl.
  - tauto.
  - rewrite Ascii.eqb_eq. unfold newline. split.
    + intros ->. now right.
    + intros [H|H]; [discriminate|congruence].
  - split; [discriminate|intros [H|H]; discriminate].
Qed.

Lemma before_snoc s c : ∀ p, before p (s +:+ String c "") = Some c.
Proof. induction s as [|a s IH]; intros p; simpl; [reflexivity|apply IH]. Qed.

(** X10. The name pattern accepts exactly the non-empty strings of
    lowercase ASCII letters, digits and hyphens, and those strings followed
    by one final newline ([$] also matches before a trailing newline). *)
Theorem name_pattern_iff (name : string) :
  re_match NAME_PATTERN name = true
  ↔ ∃ s, s ≠ "" ∧ Forall (fun c => name_char c = true) (chars s)
         ∧ (name = s ∨ name = s +:+ String newline "").
Proof.
  unfold re_match, NAME_PATTERN.
  change (match_here false
            [Bol; Plus (Ranges [("a", "z"); ("0", "9"); ("-", "-")]%char); Eol]
            None name)
    with (match_here false
            [Plus (Ranges [("a", "z"); ("0", "9"); ("-", "-")]%char); Eol]
            None name).
  rewrite match_plus_iff. split.
  - intros (c & run & rest & -> & Hall & Heol).
    change (at_eol rest && true = true) in Heol.
    rewrite andb_true_r, at_eol_iff in Heol.
    exists (String c run). split; [discriminate|]. split.
    + eapply List.Forall_impl; [|exact Hall]. intros x Hx. cbv beta in Hx.
      now rewrite name_char_in_charset in Hx.
    + destruct Heol as [->| ->]; [left|right]; simpl; [|reflexivity].
      now rewrite append_nil_r.
  - intros (s & Hne & Hall & Hs). destruct s as [|c run]; [congruence|].
    assert (Forall (fun x => in_charset false
              (Ranges [("a", "z"); ("0", "9"); ("-", "-")]%char) x = true)
              (c :: chars run)) as Hall'.
    { eapply List.Forall_impl; [|exact Hall]. intros x Hx. cbv beta in Hx.
      now rewrite name_char_in_charset. }
    destruct Hs as [->| ->].
    + exists c, run, "". rewrite append_nil_r. auto.
    + exists c, run, (String newline ""). auto.
Qed.

(** X11. On a trimmed value, as every value read from the header is, the
    name pattern accepts exactly the non-empty strings of lowercase ASCII
    letters, digits and hyphens. *)
Theorem trimmed_name_pattern_iff (name : string) :
  trimmed name →
  (re_match NAME_PATTERN name = true
   ↔ name ≠ "" ∧ Forall (fun c => name_char c = true) (chars name)).
Proof.
  intros Ht. rewrite name_pattern_iff. split.
  - intros (s & Hne & Hall & [->| ->]); [auto|]. exfalso.
    destruct Ht as [E|[_ (c & Hc & Hs)]].
    + destruct s; discriminate.
    + rewrite before_snoc in Hc. injection Hc as <-. discriminate.
  - intros [Hne Hall]. exists name. auto.
Qed.

Lemma trimmed_name_pattern_iff_witness :
  re_match NAME_PATTERN "pdf-tools" = true
  ↔ "pdf-tools" ≠ "" ∧ Forall (fun c => name_char c = true) (chars "pdf-tools").
Proof.
  apply (trimmed_name_pattern_iff "pdf-tools").
  right. split; [exists "p"%char|exists "s"%char]; split; reflexivity.
Defined.

Lemma has_tag_open v : has_tag v → In "<"%char (chars v).
Proof.
  intros (pre & mid & post & -> & _).
  induction pre; simpl; [now left|now right].
Qed.

Lemma in_chars_app c s t : In c (chars (s +:+ t)) ↔ In c (chars s) ∨ In c (chars t).
Proof. induction s; simpl; [tauto|rewrite IHs; tauto]. Qed.

(** X12. The markup error on a name never comes alone: a name with a tag
    holds a [<], so it also gets the character-class error. *)
Theorem name_tag_implies_charset_error (name : string) :
  In NAME_XML (validate_name name) → In NAME_CHARSET (validate_name name).
Proof.
  intros Hx. apply name_xml_iff in Hx.
  pose proof (has_tag_nonempty _ Hx) as Hne. apply has_tag_open in Hx.
  rewrite validate_name_reports by exact Hne.
  apply in_app_iff. right. apply in_app_iff. left.
  apply in_report. split; [|reflexivity].
  apply negb_true_iff, not_true_iff_false. intros Hm.
  apply name_pattern_iff in Hm. destruct Hm as (s & _ & Hall & Hs).
  assert (In "<"%char (chars s)) as Hin.
  { destruct Hs as [->| ->]; [exact Hx|].
    apply in_chars_app in Hx. simpl in Hx.
    destruct Hx as [H|[H|[]]]; [exact H|discriminate H]. }
  rewrite List.Forall_forall in Hall. apply Hall in Hin. discriminate.
Qed.

Lemma name_tag_implies_charset_error_witness :
  In NAME_CHARSET (validate_name "a<b>").
Proof.
  apply (name_tag_implies_charset_error "a<b>").
  vm_compute. auto.
Defined.

(** ** What a clean result guarantees *)

Lemma report_nil fires message : report fires message = [] → fires = false.
Proof. destruct fires; [discriminate|reflexivity]. Qed.

(** X13. The name validator returns no error exactly when the name
    satisfies every rule on names: given, at most 64 characters, matching
    the name pattern, free of tags and of reserved words. *)
Theorem validate_name_accepts_iff (name : string) :
  validate_name name = [] ↔ valid_name name.
Proof.
  split; [|apply validate_name_valid].
  destruct (string_dec name "") as [->|Hne]; [discriminate|].
  rewrite validate_name_reports by exact Hne. intros E.
  apply List.app_eq_nil in E. destruct E as [E1 E].
  apply List.app_eq_nil in E. destruct E as [E2 E].
  apply List.app_eq_nil in E. destruct E as [E3 E4].
  apply report_nil in E1, E2, E3. constructor.
  - exact Hne.
  - apply Nat.ltb_ge. exact E1.
  - now apply negb_false_iff in E2.
  - rewrite <- xml_search_iff. now apply not_true_iff_false.
  - intros word Hw. rewrite <- str_in_iff. apply not_true_iff_false.
    unfold RESERVED_WORDS in *. cbn [flat_map] in E4.
    apply List.app_eq_nil in E4. destruct E4 as [Ea E4].
    apply List.app_eq_nil in E4. destruct E4 as [Ec _].
    apply report_nil in Ea, Ec.
    destruct Hw as [<-|[<-|[]]]; assumption.
Qed.

(** X14. The description validator returns no error exactly when the
    description satisfies every rule on descriptions: given, at most 1024
    characters, free of tags, matching no first-person and no
    second-person pattern, and holding a guidance phrase. *)
Theorem validate_description_accepts_iff (description : string) :
  validate_description description = [] ↔ valid_description description.
Proof.
  split; [|apply validate_description_valid].
  destruct (string_dec description "") as [->|Hne]; [discriminate|].
  rewrite validate_description_reports by exact Hne. intros E.
  apply List.app_eq_nil in E. destruct E as [E1 E].
  apply List.app_eq_nil in E. destruct E as [E2 E].
  apply List.app_eq_nil in E. destruct E as [E3 E].
  apply List.app_eq_nil in E. destruct E as [E4 E5].
  apply report_nil in E1, E2, E3, E4, E5. constructor.
  - exact Hne.
  - apply Nat.ltb_ge. exact E1.
  - rewrite <- xml_search_iff. now apply not_true_iff_false.
  - apply existsb_false. exact E3.
  - apply existsb_false. exact E4.
  - apply negb_false_iff in E5. apply existsb_exists in E5.
    destruct E5 as (phrase & Hin & Hs). exists phrase.
    split; [exact Hin|]. now apply str_in_iff.
Qed.

(** X15. A clean result is earned: if [validate_skill] returns no error
    and no warning, then the file is named [SKILL.md], it was read, its
    document is well formed, the [name] and [description] of its header
    satisfy all their rules, and its body has at most 500 non-blank
    lines. *)
Theorem clean_result_sound (filepath : string) (path : Path) :
  validate_skill filepath path = Some ([], []) →
  Path_name path = "SKILL.md"
  ∧ ∃ content opening header closing body data,
      readable path content
      ∧ well_formed content opening header closing body
      ∧ parse_frontmatter (join (String newline "") header) = Some data
      ∧ valid_name (dict_get data "name")
      ∧ valid_description (dict_get data "description")
      ∧ (length (List.filter non_blank body) ≤ 500)%nat.
Proof.
  intros Hv.
  destruct (validate_skill_outcomes _ _ _ _ Hv)
    as [(content & fm & Hr & He & Hw)|[_ (e & He & _)]]; [|discriminate].
  symmetry in Hw. apply List.app_eq_nil in Hw. destruct Hw as [Hf Hb].
  apply report_nil in Hf, Hb.
  destruct (validate_skill_extracted filepath path content fm Hr He)
    as (data & Hp & Hv').
  rewrite Hv' in Hv. injection Hv as Herr _.
  apply List.app_eq_nil in Herr. destruct Herr as [Hn Hd].
  apply extract_frontmatter_ok in He.
  destruct He as (opening & header & closing & body & Hwf & ->).
  split.
  - apply negb_false_iff, String.eqb_eq in Hf. exact Hf.
  - exists content, opening, header, closing, body, data.
    split; [exact Hr|]. split; [exact Hwf|]. split; [exact Hp|].
    split; [now apply validate_name_accepts_iff|].
    split; [now apply validate_description_accepts_iff|].
    rewrite <- (count_lines_well_formed _ _ _ _ _ Hwf).
    apply Nat.ltb_ge. exact Hb.
Qed.

Lemma clean_result_sound_witness :
  Path_name (skill_md good_doc) = "SKILL.md"
  ∧ ∃ content opening header closing body data,
      readable (skill_md good_doc) content
      ∧ well_formed content opening header closing body
      ∧ parse_frontmatter (join (String newline "") header) = Some data
      ∧ valid_name (dict_get data "name")
      ∧ valid_description (dict_get data "description")
      ∧ (length (List.filter non_blank body) ≤ 500)%nat.
Proof.
  apply (clean_result_sound "SKILL.md" (skill_md good_doc)).
  vm_compute. reflexivity.
Defined.

(** ** The line counter on any document *)

Lemma scan_body_start_none lines : ∀ i seen,
  (seen + length (List.filter is_delimiter_b lines) < 2)%nat →
  scan_body_start lines i seen = 0.
Proof.
  induction lines as [|line lines IH]; intros i seen Hlt; simpl in *;
    [reflexivity|].
  fold (is_delimiter_b line). destruct (is_delimiter_b line) eqn:Hd.
  - simpl in Hlt. assert (seen = 0) as -> by lia. simpl.
    apply IH. lia.
  - apply IH. exact Hlt.
Qed.

(** X16. When fewer than two lines of the document are delimiter lines,
    the counter skips nothing: it counts the non-blank lines of the whole
    document, a lone opening delimiter included. *)
Theorem count_lines_without_frontmatter (content : string) :
  (length (List.filter is_delimiter_b (lines_of content)) < 2)%nat →
  count_lines content = length (List.filter non_blank (lines_of content)).
Proof.
  intros Hlt. unfold count_lines. fold (lines_of content).
  rewrite scan_body_start_none by exact Hlt. reflexivity.
Qed.

Lemma count_lines_without_frontmatter_witness :
  count_lines (doc ["# Title"; ""; "---"; "text"]) = 3.
Proof.
  apply (count_lines_without_frontmatter (doc ["# Title"; ""; "---"; "text"])).
  vm_compute. lia.
Defined.

(** X17. The body starts after the second delimiter line wherever the two
    delimiter lines are, also when the first line of the document is not
    one: the count is the number of non-blank lines after it. *)
Theorem count_lines_after_second_delimiter
    (content : string) (before : list string) (closing : string)
    (body : list string) :
  lines_of content = before ++ closing :: body →
  length (List.filter is_delimiter_b before) = 1 →
  is_delimiter closing →
  count_lines content = length (List.filter non_blank body).
Proof.
  intros Hl Hone Hc. unfold count_lines. fold (lines_of content). rewrite Hl.
  rewrite (scan_body_start_second before closing body 0 0)
    by (assumption || (simpl; lia)).
  replace (0 + length before + 1) with (length (before ++ [closing]))
    by (rewrite length_app; simpl; lia).
  replace (before ++ closing :: body) with ((before ++ [closing]) ++ body)
    by (now rewrite <- app_assoc).
  now rewrite drop_app_length.
Qed.

Lemma count_lines_after_second_delimiter_witness :
  count_lines (doc ["intro"; "---"; "more"; "---"; "one"; " "; "two"]) = 2.
Proof.
  apply (count_lines_after_second_delimiter
           (doc ["intro"; "---"; "more"; "---"; "one"; " "; "two"])
           ["intro"; "---"; "more"] "---" ["one"; " "; "two"]);
    reflexivity.
Defined.

(** ** The length checks *)

Lemma append_inj_l p a b : p +:+ a = p +:+ b → a = b.
Proof. induction p as [|c p IH]; simpl; [auto|]. intros H. injection H as H. auto. Qed.

Lemma append_length a b :
  String.length (a +:+ b) = String.length a + String.length b.
Proof. induction a; simpl; congruence. Qed.

Lemma append_inj_r a b t : a +:+ t = b +:+ t → a = b.
Proof.
  intros H. assert (String.length a = String.length b) as Hlen.
  { apply (f_equal String.length) in H. rewrite !append_length in H. lia. }
  revert b H Hlen. induction a as [|c a IH]; intros [|d b] H Hlen;
    simpl in *; try discriminate; [reflexivity|].
  injection H as -> H. f_equal. apply IH; [exact H|lia].
Qed.

Lemma str_of_nat_inj a b : str_of_nat a = str_of_nat b → a = b.
Proof.
  assert (∀ n, match NilZero.uint_of_string (str_of_nat n) with
               | Some d => Nat.of_uint d
               | None => 0
               end = n) as Hinv.
  { intros n. unfold str_of_nat.
    pose proof (DecimalNat.Unsigned.of_to n) as Hn.
    destruct (Nat.to_uint n) eqn:E;
      try (rewrite NilZero.usu by discriminate; exact Hn).
    simpl in Hn. subst n. reflexivity. }
  intros H. rewrite <- (Hinv a), <- (Hinv b), H. reflexivity.
Qed.

(** X18. The length error of a name is there exactly when the name has
    more than 64 characters, and it cites the length of the name and no
    other number; likewise for a description and 1024. *)
Theorem length_errors_iff (name description : string) (k : nat) :
  (In (name_too_long k) (validate_name name)
   ↔ k = String.length name ∧ (64 < k)%nat)
  ∧ (In (description_too_long k) (validate_description description)
     ↔ k = String.length description ∧ (1024 < k)%nat).
Proof.
  split.
  - destruct (string_dec name "") as [->|Hne].
    + split.
      * intros [H|[]]. revert H. distinct_messages.
      * simpl. intros [-> H]. lia.
    + rewrite validate_name_reports by exact Hne.
      rewrite !in_app_iff, !in_report, in_flat_map. unfold too_long. split.
      * intros [[Hlt H]|[[_ H]|[[_ H]|(w & _ & H)]]].
        -- unfold name_too_long in H. do 3 apply append_inj_l in H.
           apply append_inj_r, str_of_nat_inj in H. subst k.
           apply Nat.ltb_lt in Hlt. auto.
        -- exfalso. revert H. distinct_messages.
        -- exfalso. revert H. distinct_messages.
        -- exfalso. apply in_report in H. destruct H as [_ H]. revert H.
           unfold name_reserved, name_too_long. simpl. intros H.
           repeat (injection H as H). discriminate.
      * intros [-> Hlt]. left. split; [now apply Nat.ltb_lt|reflexivity].
  - destruct (string_dec description "") as [->|Hne].
    + split.
      * intros [H|[]]. revert H. distinct_messages.
      * simpl. intros [-> H]. lia.
    + rewrite validate_description_reports by exact Hne.
      rewrite !in_app_iff, !in_report. unfold too_long. split.
      * intros [[Hlt H]|[[_ H]|[[_ H]|[[_ H]|[_ H]]]]];
          [|exfalso; revert H; distinct_messages..].
        unfold description_too_long in H. do 3 apply append_inj_l in H.
        apply append_inj_r, str_of_nat_inj in H. subst k.
        apply Nat.ltb_lt in Hlt. auto.
      * intros [-> Hlt]. left. split; [now apply Nat.ltb_lt|reflexivity].
Qed.

(** ** The second-person patterns *)

Lemma append_assoc a b c : (a +:+ b) +:+ c = a +:+ (b +:+ c).
Proof. induction a; simpl; congruence. Qed.

Lemma lower_app_inv a b : ∀ w,
  lower w = a +:+ b → ∃ w1 w2, w = w1 +:+ w2 ∧ lower w1 = a ∧ lower w2 = b.
Proof.
  induction a as [|c a IH]; intros w E.
  - exists "", w. auto.
  - destruct w as [|d w]; [discriminate|]. simpl in E.
    injection E as Hc E. destruct (IH w E) as (w1 & w2 & -> & <- & <-).
    exists (String d w1), w2. simpl. rewrite Hc. auto.
Qed.

(** A word after a word boundary, whatever its case and whatever follows. *)
Lemma start_word_search w0 d :
  w0 ≠ "" →
  word_opt (head (lower w0)) = true →
  re_search true (WordB :: lit w0) d = true
  ↔ ∃ pre w post, d = pre +:+ w +:+ post ∧ lower w = lower w0
                  ∧ word_opt (before None pre) = false.
Proof.
  intros Hne Hfirst.
  assert (∀ w p post, lower w = lower w0 →
            xorb (word_opt p) (word_opt (head (w +:+ post))) = negb (word_opt p))
    as Hstart.
  { intros w p post Hw. rewrite head_app.
    - rewrite <- word_head_lower, Hw, Hfirst. now destruct (word_opt p).
    - intros ->. destruct w0; [congruence|discriminate]. }
  rewrite re_search_iff. split.
  - intros (pre & s' & -> & H).
    rewrite match_wordb, andb_true_iff in H. destruct H as [Hb H].
    rewrite <- (app_nil_r (lit w0)) in H. apply match_lit_iff in H.
    destruct H as (w & post & -> & Hw & _).
    rewrite Hstart in Hb by exact Hw. apply negb_true_iff in Hb.
    exists pre, w, post. auto.
  - intros (pre & w & post & -> & Hw & Hb). exists pre, (w +:+ post).
    split; [reflexivity|].
    rewrite match_wordb, andb_true_iff, Hstart, Hb by exact Hw.
    split; [reflexivity|].
    rewrite <- (app_nil_r (lit w0)). apply match_lit_iff.
    exists w, post. auto.
Qed.

Lemma second_person_iff description :
  In SECOND_PERSON (validate_description description)
  ↔ matches_any second_person_patterns description = true.
Proof.
  destruct (string_dec description "") as [->|Hne].
  - split.
    + intros [H|[]]. revert H. distinct_messages.
    + vm_compute. discriminate.
  - rewrite validate_description_reports by exact Hne.
    rewrite !in_app_iff, !in_report. split.
    + intros [[_ H]|[[_ H]|[[_ H]|[[H _]|[_ H]]]]];
        [exfalso|exfalso|exfalso|exact H|exfalso]; revert H;
        distinct_messages.
    + intros H. do 3 right. left. auto.
Qed.

(** A contraction of [you] holds [you] standing alone: the apostrophe
    that follows is no word character. *)
Lemma you_contraction tail pre w post :
  head (lower tail) = Some "'"%char →
  lower w = "you" +:+ lower tail →
  word_opt (before None pre) = false →
  ∃ w1 post1, pre +:+ w +:+ post = pre +:+ w1 +:+ post1
              ∧ second_person_word pre w1 post1.
Proof.
  intros Htail Hw Hb. apply lower_app_inv in Hw.
  destruct Hw as (w1 & w2 & -> & H1 & H2).
  exists w1, (w2 +:+ post). split; [now rewrite append_assoc|].
  split; [rewrite H1; simpl; auto|]. split; [exact Hb|].
  destruct w2 as [|c w2]; [rewrite <- H2 in Htail; discriminate|].
  rewrite <- H2 in Htail. simpl in Htail. injection Htail as Hc.
  simpl. now rewrite <- char_lower_word, Hc.
Qed.

(** X19. A description gets the second-person error exactly when it
    holds [you] or [your], in any mix of upper and lower case, standing
    between word boundaries; the two contraction patterns [you're] and
    [you'll] catch nothing that [you] does not. *)
Theorem second_person_standalone (description : string) :
  In SECOND_PERSON (validate_description description)
  ↔ ∃ pre w post,
      description = pre +:+ w +:+ post ∧ second_person_word pre w post.
Proof.
  rewrite second_person_iff. unfold matches_any, second_person_patterns.
  cbn [existsb]. rewrite !orb_true_iff.
  rewrite (bare_word_search "you"), (bare_word_search "your"),
    (start_word_search "you're"), (start_word_search "you'll");
    try reflexivity; try discriminate.
  split.
  - intros [(pre & w & post & E & Hw & Hb & He)
           |[(pre & w & post & E & Hw & Hb & He)
            |[(pre & w & post & E & Hw & Hb)
             |[(pre & w & post & E & Hw & Hb)|H]]]].
    + exists pre, w, post. split; [exact E|].
      split; [rewrite Hw; simpl; auto|split; assumption].
    + exists pre, w, post. split; [exact E|].
      split; [rewrite Hw; simpl; auto|split; assumption].
    + destruct (you_contraction "'re" pre w post eq_refl Hw Hb)
        as (w1 & post1 & E1 & H1).
      exists pre, w1, post1. split; [congruence|exact H1].
    + destruct (you_contraction "'ll" pre w post eq_refl Hw Hb)
        as (w1 & post1 & E1 & H1).
      exists pre, w1, post1. split; [congruence|exact H1].
    + discriminate.
  - intros (pre & w & post & E & [[H|[H|[]]] [Hb He]]).
    + left. exists pre, w, post. auto.
    + right; left. exists pre, w, post. auto.
Qed.

Lemma second_person_standalone_witness :
  In SECOND_PERSON (validate_description "Helps when YOU'LL need it").
Proof.
  apply (proj2 (second_person_standalone "Helps when YOU'LL need it")).
  exists "Helps when ", "YOU", "'LL need it". split; [reflexivity|].
  split; [simpl; auto|split; reflexivity].
Defined.

(** ** The command line *)

Lemma print_items_map items : print_items items = map item_line items.
Proof. induction items as [|x items IH]; simpl; [reflexivity|now rewrite IH]. Qed.

Lemma argv_has_file (argv : list string) filepath :
  argv !! 1 = Some filepath → (length argv <? 2)%nat = false.
Proof. intros H. apply lookup_lt_Some in H. apply Nat.ltb_ge. lia. Qed.

Lemma argv_file (argv : list string) :
  (length argv <? 2)%nat = false → ∃ filepath, argv !! 1 = Some filepath.
Proof.
  intros H. apply Nat.ltb_ge in H.
  destruct (lookup_lt_is_Some_2 argv 1) as [filepath E]; [lia|]. eauto.
Qed.

Lemma main_run argv fs filepath errors warnings :
  argv !! 1 = Some filepath →
  validate_skill filepath (fs filepath) = Some (errors, warnings) →
  main argv fs
  = Some
      (match errors, warnings with
       | [], [] =>
           preamble filepath
           ++ [(Stdout, PASSED_BANNER); (Stdout, []);
               (Stdout,
                of_str "SKILL.md is valid and follows all best practices!")]
       | [], _ :: _ =>
           preamble filepath
           ++ [(Stdout, WARNINGS_BANNER); (Stdout, [])]
           ++ warnings_block warnings
       | _ :: _, [] => preamble filepath ++ failure_block errors
       | _ :: _, _ :: _ =>
           preamble filepath ++ failure_block errors
           ++ warnings_block warnings
       end,
       if truthy_list errors then 1 else 0).
Proof.
  intros Harg Hv. unfold main. rewrite (argv_has_file _ _ Harg), Harg.
  cbn [mbind option_bind]. rewrite Hv. cbn [mbind option_bind].
  unfold preamble, failure_block, warnings_block, print.
  rewrite !print_items_map.
  destruct errors as [|e errors], warnings as [|w warnings];
    cbn [truthy_list]; reflexivity.
Qed.

(** X20. [main] always ends by exiting with status 0 or 1, and never by an
    escaping exception. The status is 0 exactly when a file argument is
    given and validating it returns no error; warnings do not change it. *)
Theorem main_exit_status (argv : list string) (fs : string → Path) :
  ∃ out status,
    main argv fs = Some (out, status)
    ∧ (status = 0 ∨ status = 1)
    ∧ (status = 0
       ↔ ∃ filepath warnings,
           argv !! 1 = Some filepath
           ∧ validate_skill filepath (fs filepath) = Some ([], warnings)).
Proof.
  destruct (length argv <? 2)%nat eqn:Hlen.
  - unfold main. rewrite Hlen. eexists _, 1. split; [reflexivity|].
    split; [now right|]. split; [discriminate|].
    intros (filepath & warnings & Harg & _).
    apply argv_has_file in Harg. congruence.
  - destruct (argv_file _ Hlen) as [filepath Harg].
    destruct (validate_skill_never_raises filepath (fs filepath))
      as (errors & warnings & Hv).
    rewrite (main_run _ _ _ _ _ Harg Hv). eexists _, _.
    split; [reflexivity|]. destruct errors as [|e errors]; cbn [truthy_list].
    + split; [now left|]. split; [|reflexivity]. eauto.
    + split; [now right|]. split; [discriminate|].
      intros (filepath' & warnings' & Harg' & Hv').
      rewrite Harg in Harg'. injection Harg' as <-.
      rewrite Hv in Hv'. discriminate.
Qed.

(** X21. Whatever the outcome, [main] prints every error and every
    warning that [validate_skill] returned, each on its own line of
    standard output after two spaces, a hyphen and a space, in the order
    returned. *)
Theorem main_prints_results
    (argv : list string) (fs : string → Path) (filepath : string)
    (errors warnings : list string) :
  argv !! 1 = Some filepath →
  validate_skill filepath (fs filepath) = Some (errors, warnings) →
  ∃ out status,
    main argv fs = Some (out, status)
    ∧ (∃ pre post, out = pre ++ map item_line errors ++ post)
    ∧ (∃ pre post, out = pre ++ map item_line warnings ++ post).
Proof.
  intros Harg Hv. rewrite (main_run _ _ _ _ _ Harg Hv). eexists _, _.
  split; [reflexivity|].
  destruct errors as [|e errors], warnings as [|w warnings].
  - split; eexists [], _; reflexivity.
  - split; [eexists [], _; reflexivity|].
    exists (preamble filepath
            ++ [(Stdout, WARNINGS_BANNER); (Stdout, []);
                (Stdout, of_str "Warnings:")]), [(Stdout, [])].
    unfold warnings_block. rewrite <- !app_assoc. reflexivity.
  - split; [|eexists [], _; reflexivity].
    exists (preamble filepath
            ++ [(Stdout, FAILED_BANNER); (Stdout, []);
                (Stdout, of_str "Errors:")]), [(Stdout, [])].
    unfold failure_block. rewrite <- !app_assoc. reflexivity.
  - split.
    + exists (preamble filepath
              ++ [(Stdout, FAILED_BANNER); (Stdout, []);
                  (Stdout, of_str "Errors:")]),
        ((Stdout, []) :: warnings_block (w :: warnings)).
      unfold failure_block. rewrite <- !app_assoc. reflexivity.
    + exists (preamble filepath ++ failure_block (e :: errors)
              ++ [(Stdout, of_str "Warnings:")]), [(Stdout, [])].
      unfold warnings_block. rewrite <- !app_assoc. reflexivity.
Qed.

Lemma main_prints_results_witness :
  ∃ out status,
    main ["validate_skill.py"; "notes.md"] (fun _ => notes_md "")
    = Some (out, status)
    ∧ (∃ pre post, out = pre ++ map item_line [MISSING_FRONTMATTER] ++ post)
    ∧ (∃ pre post, out = pre ++ map item_line [] ++ post).
Proof.
  apply (main_prints_results ["validate_skill.py"; "notes.md"]
           (fun _ => notes_md "") "notes.md" [MISSING_FRONTMATTER] []);
    reflexivity.
Defined.

(** No line of the results, of the preamble or of the fixed text is a
    banner: they differ at their first character. *)
Ltac not_a_banner :=
  repeat match goal with
    | H : In _ (_ ++ _) |- _ => apply in_app_iff in H; destruct H as [H|H]
    | H : In _ (warnings_block _) |- _ => unfold warnings_block in H
    | H : In _ (failure_block _) |- _ => unfold failure_block in H
    | H : In _ (preamble _) |- _ => unfold preamble in H
    | H : In _ (map item_line _) |- _ =>
        apply in_map_iff in H; destruct H as (? & H & _)
    | H : In _ (_ :: _) |- _ => destruct H as [H|H]
    | H : In _ [] |- _ => destruct H
    | H : _ = (_, _) |- _ => vm_compute in H; discriminate H
    end.

(** X22. When a file is validated, [main] prints exactly one of its three
    banners, chosen by the result alone: the failure banner when there is
    an error, the passed-with-warnings banner when there are only
    warnings, the passed banner when there is neither. *)
Theorem main_banner
    (argv : list string) (fs : string → Path) (filepath : string)
    (errors warnings : list string) :
  argv !! 1 = Some filepath →
  validate_skill filepath (fs filepath) = Some (errors, warnings) →
  ∃ out status,
    main argv fs = Some (out, status)
    ∧ (In (Stdout, FAILED_BANNER) out ↔ errors ≠ [])
    ∧ (In (Stdout, WARNINGS_BANNER) out ↔ errors = [] ∧ warnings ≠ [])
    ∧ (In (Stdout, PASSED_BANNER) out ↔ errors = [] ∧ warnings = []).
Proof.
  intros Harg Hv. rewrite (main_run _ _ _ _ _ Harg Hv). eexists _, _.
  split; [reflexivity|].
  destruct errors as [|e errors], warnings as [|w warnings];
    (split; [|split]); split; intros H;
    first [ solve [congruence]
          | solve [split; congruence]
          | solve [destruct H; congruence]
          | solve [exfalso; not_a_banner]
          | solve [unfold preamble, failure_block; simpl; auto 10] ].
Qed.

Lemma main_banner_witness :
  ∃ out status,
    main ["validate_skill.py"; "notes.md"] (fun _ => notes_md good_doc)
    = Some (out, status)
    ∧ (In (Stdout, FAILED_BANNER) out ↔ @nil string ≠ [])
    ∧ (In (Stdout, WARNINGS_BANNER) out
       ↔ @nil string = [] ∧ [wrong_filename "notes.md"] ≠ [])
    ∧ (In (Stdout, PASSED_BANNER) out
       ↔ @nil string = [] ∧ [wrong_filename "notes.md"] = []).
Proof.
  apply (main_banner ["validate_skill.py"; "notes.md"]
           (fun _ => notes_md good_doc) "notes.md" []
           [wrong_filename "notes.md"]).
  - reflexivity.
  - vm_compute. reflexivity.
Defined.
